(** * protection-server: the /update-protection handler of [server.js]

    A shallow embedding of the request handler, of [withLock] and of
    [updateVariantPrice], with the properties of the pricing policy, of the
    input validation and of the per-variant lock.

    - JavaScript numbers are IEEE 754 binary64 values, taken from the
      Standard Library's executable specification [SpecFloat].
    - A request body is the record of the four fields the handler
      destructures; an absent field is [JsUndefined].
    - An [async] function is cut at its [await]s: every piece between two
      suspensions runs atomically on the event loop and is one function on
      the shared state; the interleaving of several requests is a step
      relation over these pieces. *)

From Stdlib Require Import ZArith NArith Bool List String Ascii Lia.
From Stdlib Require Import SpecFloat DecimalString.
Import ListNotations.

Local Open Scope Z_scope.

(** ** Numbers *)

Module Number.

Definition prec : Z := 53.
Definition emax : Z := 1024.

Definition t : Type := spec_float.

Definition mul : t -> t -> t := SFmul prec emax.
Definition add : t -> t -> t := SFadd prec emax.

(** [x < y] and [x <= y]: false as soon as one side is NaN. *)
Definition ltb : t -> t -> bool := SFltb.
Definition leb : t -> t -> bool := SFleb.

Definition isNaN (x : t) : bool :=
  match x with S754_nan => true | _ => false end.

Definition pow10 (k : N) : positive :=
  match k with N0 => 1%positive | Npos p => Pos.pow 10 p end.

(** The Number value of the decimal numeral [digits * 10^(-scale)], with a
    leading minus sign when [neg]: the binary64 value nearest to it, ties
    to even.  The quotient of the two integers is rounded once. *)
Definition of_decimal (neg : bool) (digits scale : N) : t :=
  match digits with
  | N0 => S754_zero neg
  | Npos d =>
      SFdiv prec emax (S754_finite neg d 0) (S754_finite false (pow10 scale) 0)
  end.

(** The strings [toFixed(2)] returns, kept structured: [NS_Fixed2 neg cents]
    is the digits of [cents] with a point before the last two, after a minus
    sign when [neg]; [NS_ToString x] is [Number::toString(x)], the shortest
    digits that read back as [x], used from [10^21] on. *)
Inductive NumberString : Type :=
| NS_NaN
| NS_Infinity (neg : bool)
| NS_Fixed2 (neg : bool) (cents : N)
| NS_ToString (x : t).

(** [10^21 <= m * 2^e] *)
Definition ge_1e21 (m : positive) (e : Z) : bool :=
  match e with
  | Zneg p => 10 ^ 21 * Z.pow_pos 2 p <=? Zpos m
  | _ => 10 ^ 21 <=? Zpos m * 2 ^ e
  end.

(** The integer [n] for which [n / 100 - m * 2^e] is as close to zero as
    possible, the larger one when there are two. *)
Definition nearest_cents (m : positive) (e : Z) : Z :=
  match e with
  | Zneg p => (200 * Zpos m + Z.pow_pos 2 p) / (2 * Z.pow_pos 2 p)
  | _ => 100 * Zpos m * 2 ^ e
  end.

(** [x.toFixed(2)] (Number.prototype.toFixed, fractionDigits = 2). *)
Definition toFixed2 (x : t) : NumberString :=
  match x with
  | S754_nan => NS_NaN
  | S754_infinity s => NS_Infinity s
  | S754_zero _ => NS_Fixed2 false 0
  | S754_finite s m e =>
      if ge_1e21 m e then NS_ToString x
      else NS_Fixed2 s (Z.to_N (nearest_cents m e))
  end.

(** [Number(str)] on the strings above. *)
Definition ofString (str : NumberString) : t :=
  match str with
  | NS_NaN => S754_nan
  | NS_Infinity s => S754_infinity s
  | NS_Fixed2 s cents => of_decimal s cents 2
  | NS_ToString x => x
  end.

(** The value of [x] when it is an integer. *)
Definition integer (x : t) : option Z :=
  match x with
  | S754_zero _ => Some 0
  | S754_finite s m (Zneg p) =>
      if Zpos m mod Z.pow_pos 2 p =? 0
      then Some (cond_Zopp s (Zpos m / Z.pow_pos 2 p))
      else None
  | S754_finite s m e => Some (cond_Zopp s (Zpos m * 2 ^ e))
  | _ => None
  end.

(** The text of a number in a template literal, [Number::toString(x)]: the
    decimal digits for an integer below [10^21], and otherwise, kept
    unrendered as [Shortest x], the shortest digits that read back as [x]. *)
Inductive Text : Type :=
| Rendered (s : string)
| Shortest (x : t).

Definition toString (x : t) : Text :=
  match x with
  | S754_nan => Rendered "NaN"
  | S754_infinity false => Rendered "Infinity"
  | S754_infinity true => Rendered "-Infinity"
  | _ =>
      match integer x with
      | Some z =>
          if Z.abs z <? 10 ^ 21
          then Rendered ((if z <? 0 then "-" else "")
                           ++ NilEmpty.string_of_uint (N.to_uint (Z.abs_N z)))
          else Shortest x
      | None => Shortest x
      end
  end.

End Number.

(** ** Values *)

(** The values a JSON body can hold, and [undefined] for an absent field.
    Of an object or array the handler sees its identity and its conversion
    to a string, [None] when that conversion throws (a parsed object whose
    own [toString] is not a function). *)
Inductive JsValue : Type :=
| JsUndefined
| JsNull
| JsBool (b : bool)
| JsNumber (x : Number.t)
| JsString (s : string)
| JsObject (ref : positive) (text : option string).

Definition ToBoolean (v : JsValue) : bool :=
  match v with
  | JsUndefined | JsNull => false
  | JsBool b => b
  | JsNumber (S754_zero _) | JsNumber S754_nan => false
  | JsNumber _ => true
  | JsString EmptyString => false
  | JsString _ => true
  | JsObject _ _ => true
  end.

(** [v === true] *)
Definition is_true (v : JsValue) : bool :=
  match v with JsBool true => true | _ => false end.

(** [a || b] *)
Definition js_or (a b : JsValue) : JsValue :=
  if ToBoolean a then a else b.

(** The key comparison of [Map]. *)
Definition SameValueZero (a b : JsValue) : bool :=
  match a, b with
  | JsUndefined, JsUndefined => true
  | JsNull, JsNull => true
  | JsBool x, JsBool y => Bool.eqb x y
  | JsNumber x, JsNumber y => (Number.isNaN x && Number.isNaN y) || SFeqb x y
  | JsString s, JsString t => String.eqb s t
  | JsObject r _, JsObject q _ => Pos.eqb r q
  | _, _ => false
  end.

(** One representative per class of [SameValueZero]: it identifies the two
    zeros, and an object is its identity. *)
Definition canon (v : JsValue) : JsValue :=
  match v with
  | JsNumber (S754_zero _) => JsNumber (S754_zero false)
  | JsObject r _ => JsObject r None
  | _ => v
  end.

(** [`${v}`], the text of a value spliced in a template literal; [None] when
    the conversion throws a TypeError. *)
Definition ToString (v : JsValue) : option Number.Text :=
  match v with
  | JsUndefined => Some (Number.Rendered "undefined")
  | JsNull => Some (Number.Rendered "null")
  | JsBool true => Some (Number.Rendered "true")
  | JsBool false => Some (Number.Rendered "false")
  | JsNumber x => Some (Number.toString x)
  | JsString s => Some (Number.Rendered s)
  | JsObject _ text => option_map Number.Rendered text
  end.

(** ** [Map] *)

Module JsMap.

Definition t : Type := list (JsValue * JsValue).

Definition empty : t := [].

Fixpoint get (k : JsValue) (m : t) : JsValue :=
  match m with
  | [] => JsUndefined
  | (k', v) :: rest => if SameValueZero k' k then v else get k rest
  end.

Fixpoint set (k v : JsValue) (m : t) : t :=
  match m with
  | [] => [(k, v)]
  | (k', v') :: rest =>
      if SameValueZero k' k then (k', v) :: rest else (k', v') :: set k v rest
  end.

Definition delete (k : JsValue) (m : t) : t :=
  filter (fun kv => negb (SameValueZero (fst kv) k)) m.

End JsMap.

(** ** Configuration *)

Definition PROTECTION_VARIANT_DYNAMIC : JsValue := JsString "45626932789401".
Definition PROTECTION_THRESHOLD : Number.t := Number.of_decimal false 100 0.
Definition PROTECTION_PERCENT : Number.t := Number.of_decimal false 3 2.
Definition PROTECTION_BASE_INCREMENT : Number.t := Number.of_decimal false 1 2.

(** The literals [0] and [2.17] of the handler. *)
Definition zero : Number.t := S754_zero false.
Definition fixedPrice : Number.t := Number.of_decimal false 217 2.

(** [m / 2^p] is within half a unit in the last place of [num / den]. *)
Definition within_half_ulp (m p : positive) (num den : Z) : Prop :=
  2 * Z.abs (den * Zpos m - num * Z.pow_pos 2 p) <= den.

(** ** Requests, remote calls and responses *)

Record Body : Type := mkBody {
  subtotal : JsValue;
  reset : JsValue;
  new_price : JsValue;
  variant_id : JsValue
}.

(** One invocation [updateVariantPrice(variantId, newPrice)]. *)
Record UpdateCall : Type := mkCall {
  variantId : JsValue;
  newPrice : Number.t
}.

(** The PUT request: [variantId] fills the URL and, through [Number], the
    [id] of the payload; the price is sent as [newPrice.toFixed(2)]. *)
Record FetchRequest : Type := mkRequest {
  request_variant : JsValue;
  request_price : Number.NumberString
}.

(** What the handler reads of a response: [json_variant] is [json.variant]
    as its [id] and [price], [None] when the payload has no [variant]. *)
Record FetchResponse : Type := mkResponse {
  status : N;
  statusText : string;
  text : string;
  json_variant : option (JsValue * JsValue)
}.

(** [res.ok]: the status is in the range 200-299. *)
Definition ok (res : FetchResponse) : bool :=
  ((200 <=? status res) && (status res <=? 299))%N.

(** The awaited [fetch] settles: rejected (also when reading the payload
    rejects) or resolved with a response. *)
Inductive FetchOutcome : Type :=
| FetchRejected (reason : string)
| FetchResolved (res : FetchResponse).

(** A thrown [Error]: its message and the [status] property, when set. *)
Record JsError : Type := mkError {
  message : string;
  error_status : option N
}.

(** The [note] of a success response, by the rule that fired; the printed
    numbers are kept unrendered. *)
Inductive Note : Type :=
| NoteReset (new_price : Number.t)
| NoteFixed (subtotal_fixed : Number.NumberString)
| NoteDynamic (subtotal_fixed : Number.NumberString).

Inductive ResponseBody : Type :=
| Success (variant_id new_price : JsValue) (note : Note)
| Failure (error : string).

Record Response : Type := mkResp {
  code : N;
  json : ResponseBody
}.

(** ** The pieces of the handler *)

(** What a branch of the handler hands to [withLock]: the key, the call
    made under the lock and the note of the answer. *)
Record Job : Type := mkJob {
  key : JsValue;
  call : UpdateCall;
  note : Note
}.

(** A request is polling for the lock, holds it while its remote call is
    pending, or has been answered. *)
Inductive Task : Type :=
| Waiting (j : Job)
| InFlight (j : Job)
| Done (r : Response).

(** The shared state: the [locks] map and the log of the calls of
    [updateVariantPrice]. *)
Record World : Type := mkWorld {
  locks : JsMap.t;
  calls : list UpdateCall
}.

(** [withLock], from the test of the loop to the next suspension: either the
    50ms sleep, or the lock is taken and [fn] has started its call. *)
Definition withLock_enter (w : World) (j : Job) : World * Task :=
  if ToBoolean (JsMap.get (key j) (locks w)) then (w, Waiting j)
  else (mkWorld (JsMap.set (key j) (JsBool true) (locks w)) (calls w ++ [call j]),
        InFlight j).

(** The [finally] block of [withLock]. *)
Definition withLock_exit (w : World) (j : Job) : World :=
  mkWorld (JsMap.delete (key j) (locks w)) (calls w).

Definition fetch_request (c : UpdateCall) : FetchRequest :=
  mkRequest (variantId c) (Number.toFixed2 (newPrice c)).

Definition decimal (n : N) : string := NilEmpty.string_of_uint (N.to_uint n).

Definition remote_error_message (res : FetchResponse) : string :=
  ("Shopify Admin API error: " ++ decimal (status res) ++ " " ++ statusText res
     ++ " - " ++ text res)%string.

(** [updateVariantPrice] after its [fetch] has settled: the thrown error or
    [json.variant]. *)
Definition updateVariantPrice_resume (o : FetchOutcome)
  : JsError + option (JsValue * JsValue) :=
  match o with
  | FetchRejected reason => inl (mkError reason None)
  | FetchResolved res =>
      if ok res then inr (json_variant res)
      else inl (mkError (remote_error_message res) (Some (status res)))
  end.

(** The [catch] block of the handler. *)
Definition caught (err : JsError) : Response :=
  mkResp 500 (Failure (match message err with
                       | EmptyString => "unknown error"
                       | msg => msg
                       end)).

(** Reading [updatedVariant.id] when there is no variant throws. *)
Definition no_variant_error : JsError :=
  mkError "Cannot read properties of undefined (reading 'id')" None.

(** Splicing in a template literal a value that has no string conversion
    throws. *)
Definition conversion_error : JsError :=
  mkError "Cannot convert object to primitive value" None.

(** The handler after [await withLock(...)]. *)
Definition handler_resume (j : Job) (r : JsError + option (JsValue * JsValue))
  : Response :=
  match r with
  | inr (Some (id, price)) => mkResp 200 (Success id price (note j))
  | inr None => caught no_variant_error
  | inl err => caught err
  end.

(** The remote call of a task in flight settles with [o]. *)
Definition settle (w : World) (j : Job) (o : FetchOutcome) : World * Task :=
  (withLock_exit w j, Done (handler_resume j (updateVariantPrice_resume o))).

Definition reset_job (variant : JsValue) (price : Number.t) : Job :=
  mkJob variant (mkCall variant price) (NoteReset price).

Definition fixed_job (s : Number.t) : Job :=
  mkJob PROTECTION_VARIANT_DYNAMIC (mkCall PROTECTION_VARIANT_DYNAMIC fixedPrice)
        (NoteFixed (Number.toFixed2 s)).

Definition targetPrice (s : Number.t) : Number.t :=
  let feeRaw := Number.mul s PROTECTION_PERCENT in
  Number.ofString (Number.toFixed2 (Number.add feeRaw PROTECTION_BASE_INCREMENT)).

Definition dynamic_job (s : Number.t) : Job :=
  mkJob PROTECTION_VARIANT_DYNAMIC
        (mkCall PROTECTION_VARIANT_DYNAMIC (targetPrice s))
        (NoteDynamic (Number.toFixed2 s)).

Definition bad_request (error : string) : Response := mkResp 400 (Failure error).

(** The handler of [POST /update-protection], from its entry to its first
    suspension or to its answer without one.  In reset mode the log line
    splices [variant_id || PROTECTION_VARIANT_DYNAMIC] in a template literal
    before [withLock] is called; when that throws, the [catch] block answers
    500. *)
Definition handler_entry (w : World) (b : Body) : World * Task :=
  if is_true (reset b) then
    match new_price b with
    | JsNumber p =>
        if Number.isNaN p || Number.leb p zero
        then (w, Done (bad_request "Invalid new_price for reset"))
        else
          match ToString (js_or (variant_id b) PROTECTION_VARIANT_DYNAMIC) with
          | None => (w, Done (caught conversion_error))
          | Some _ =>
              withLock_enter w
                (reset_job (js_or (variant_id b) PROTECTION_VARIANT_DYNAMIC) p)
          end
    | _ => (w, Done (bad_request "Invalid new_price for reset"))
    end
  else
    match subtotal b with
    | JsNumber s =>
        if Number.isNaN s || Number.ltb s zero
        then (w, Done (bad_request "subtotal must be a positive number (USD)"))
        else if Number.ltb s PROTECTION_THRESHOLD
        then withLock_enter w (fixed_job s)
        else withLock_enter w (dynamic_job s)
    | _ => (w, Done (bad_request "subtotal must be a positive number (USD)"))
    end.

(** One request served with nothing else running: the remote answers by
    [remote].  A task left [Waiting] found the lock held and polls. *)
Definition serve (remote : FetchRequest -> FetchOutcome) (w : World) (b : Body)
  : World * Task :=
  match handler_entry w b with
  | (w', InFlight j) => settle w' j (remote (fetch_request (call j)))
  | blocked_or_done => blocked_or_done
  end.

(** ** Interleaved requests *)

Record System : Type := mkSystem {
  world : World;
  tasks : list Task
}.

Definition initial : System := mkSystem (mkWorld JsMap.empty []) [].

(** The event loop runs one piece at a time: a request arrives, a sleeping
    task wakes up and tests the lock again, or a pending call settles. *)
Inductive step : System -> System -> Prop :=
| step_request w ts b w' t :
    handler_entry w b = (w', t) ->
    step (mkSystem w ts) (mkSystem w' (ts ++ [t]))
| step_wake w before j after w' t :
    withLock_enter w j = (w', t) ->
    step (mkSystem w (before ++ Waiting j :: after))
         (mkSystem w' (before ++ t :: after))
| step_settle w before j after o w' t :
    settle w j o = (w', t) ->
    step (mkSystem w (before ++ InFlight j :: after))
         (mkSystem w' (before ++ t :: after)).

Inductive reachable : System -> Prop :=
| reachable_initial : reachable initial
| reachable_step s s' : reachable s -> step s s' -> reachable s'.

(** The task has a remote update pending for the identifier [v]. *)
Definition updating (v : JsValue) (t : Task) : bool :=
  match t with
  | InFlight j => SameValueZero (variantId (call j)) v
  | _ => false
  end.

(** The number of remote updates in flight for the identifier [v]. *)
Definition in_flight (v : JsValue) (ts : list Task) : nat :=
  List.length (filter (updating v) ts).

(** The job of a task locks the identifier it updates. *)
Definition task_wf (t : Task) : Prop :=
  match t with
  | Waiting j | InFlight j => key j = variantId (call j)
  | Done _ => True
  end.

(** The map has an entry, [true], exactly for the identifiers with an update
    in flight, and no identifier has two. *)
Definition lock_inv (w : World) (ts : list Task) : Prop :=
  forall v : JsValue,
    JsMap.get v (locks w)
    = match in_flight v ts with O => JsUndefined | S _ => JsBool true end
    /\ (in_flight v ts <= 1)%nat.

Definition invariant (s : System) : Prop :=
  Forall task_wf (tasks s) /\ lock_inv (world s) (tasks s).

(** [sub] occurs in [s]. *)
Definition contains (sub s : string) : Prop :=
  exists before after : string, s = (before ++ sub ++ after)%string.

(** ** Sample requests *)

Definition world0 : World := mkWorld JsMap.empty [].

(** A remote that cannot be reached, and one that refuses the update. *)
Definition remote_down (_ : FetchRequest) : FetchOutcome :=
  FetchRejected "fetch failed".

Definition response_422 : FetchResponse :=
  mkResponse 422 "Unprocessable Entity" "price is invalid" None.

Definition remote_422 (_ : FetchRequest) : FetchOutcome :=
  FetchResolved response_422.

(** [{ subtotal: s }] with [s] written as [digits * 10^(-scale)]. *)
Definition subtotal_body (digits scale : N) : Body :=
  mkBody (JsNumber (Number.of_decimal false digits scale))
         JsUndefined JsUndefined JsUndefined.

(** [{ reset: true, new_price: p }] *)
Definition reset_body (p : Number.t) : Body :=
  mkBody JsUndefined (JsBool true) (JsNumber p) JsUndefined.

(** The text of the variant in the URL of the PUT request,
    [`.../variants/${variantId}.json`]. *)
Definition url_variant (c : UpdateCall) : option Number.Text :=
  ToString (variantId c).

(** [{ reset: true, new_price: 9.99, variant_id: 45626932789401 }], the
    identifier given as a JSON number. *)
Definition numeric_variant_body : Body :=
  mkBody JsUndefined (JsBool true) (JsNumber (Number.of_decimal false 999 2))
         (JsNumber (Number.of_decimal false 45626932789401 0)).

(** A request arrives at the system. *)
Definition after_request (s : System) (b : Body) : System :=
  let (w', t) := handler_entry (world s) b in mkSystem w' (tasks s ++ [t]).

(** Two requests for the same variant: the first holds the lock, the second
    polls. *)
Definition system_contended : System :=
  after_request (after_request initial (subtotal_body 50 0)) (subtotal_body 150 0).

(** The reset above, then a calculation request, none settled yet. *)
Definition system_same_variant : System :=
  after_request (after_request initial numeric_variant_body) (subtotal_body 50 0).

(** One request whose remote call has failed. *)
Definition system_after_failure : System :=
  mkSystem (fst (serve remote_down world0 (subtotal_body 50 0)))
           [snd (serve remote_down world0 (subtotal_body 50 0))].

(** ** Observations on answers and calls *)

(** The shapes an answer of the endpoint has: 200 with the success payload,
    or 400 or 500 with [{success: false, error}] and a text in [error]. *)
Definition well_formed (r : Response) : Prop :=
  match json r with
  | Success _ _ _ => code r = 200%N
  | Failure e => (code r = 400%N \/ code r = 500%N) /\ e <> EmptyString
  end.

(** The task may have reached its call of [updateVariantPrice]: it is in
    flight, or was answered otherwise than by 400. *)
Definition called_remote (t : Task) : bool :=
  match t with
  | Waiting _ => false
  | InFlight _ => true
  | Done r => negb (code r =? 400)%N
  end.

(** The task has reached its call for sure: it is in flight, or was answered
    200. *)
Definition surely_called (t : Task) : bool :=
  match t with
  | Waiting _ => false
  | InFlight _ => true
  | Done r => (code r =? 200)%N
  end.

(** A call names a truthy identifier and a price that is [>= 0]: not NaN and
    not negative. *)
Definition call_ok (c : UpdateCall) : Prop :=
  ToBoolean (variantId c) = true /\ Number.leb zero (newPrice c) = true.

(** What is observed of a task: the call it plans or makes, or its answer. *)
Definition task_ok (t : Task) : Prop :=
  match t with
  | Waiting j | InFlight j => call_ok (call j)
  | Done r => well_formed r
  end.

(** Every task and every logged call is as above, and the log has a call
    for every task that reached its remote call for sure, and no more calls
    than tasks that may have reached it. *)
Definition observed (w : World) (ts : list Task) : Prop :=
  Forall task_ok ts /\ Forall call_ok (calls w)
  /\ (List.length (filter surely_called ts) <= List.length (calls w)
      <= List.length (filter called_remote ts))%nat.

(** The number is not NaN and its sign bit is [s]. *)
Definition has_sign (s : bool) (x : Number.t) : Prop :=
  match x with
  | S754_nan => False
  | S754_zero s' | S754_infinity s' | S754_finite s' _ _ => s' = s
  end.

(** Three requests for one variant: the first has been answered, the second
    still sleeps in its polling loop, the third came after the release. *)
Definition system_overtaken : System :=
  after_request
    (mkSystem (fst (settle (world system_contended)
                           (fixed_job (Number.of_decimal false 50 0))
                           (FetchRejected "fetch failed")))
              [snd (settle (world system_contended)
                           (fixed_job (Number.of_decimal false 50 0))
                           (FetchRejected "fetch failed"));
               Waiting (dynamic_job (Number.of_decimal false 150 0))])
    (reset_body (Number.of_decimal false 999 2)).


(** ** The rule of the specification, for comparison *)

(** [round(0.03 * s + 0.01, 2)] with halves rounded up, computed on the exact
    value [s = m * 2^e] and counted in cents: the floor of [3 * s + 1 + 1/2]. *)
Definition spec_half_up_cents (m : positive) (e : Z) : Z :=
  match e with
  | Zneg p => (6 * Zpos m + 3 * Z.pow_pos 2 p) / (2 * Z.pow_pos 2 p)
  | _ => 3 * Zpos m * 2 ^ e + 1
  end.

(** The price the rule gives for a finite positive subtotal: the Number
    written with these two decimals. *)
Definition spec_dynamic_price (s : Number.t) : option Number.t :=
  match s with
  | S754_finite false m e =>
      Some (Number.of_decimal false (Z.to_N (spec_half_up_cents m e)) 2)
  | _ => None
  end.

(** * Properties *)

(** ** Comparisons of numbers *)

Lemma SFcompare_antisym (x y : spec_float) :
  SFcompare y x = option_map CompOpp (SFcompare x y).
Proof.
  destruct x as [sx|sx| |sx mx ex], y as [sy|sy| |sy my ey]; simpl;
    try reflexivity;
    try (destruct sx; reflexivity); try (destruct sy; reflexivity);
    try (destruct sx, sy; reflexivity).
  destruct sx, sy; simpl; try reflexivity;
    rewrite (Z.compare_antisym ex ey);
    destruct (ex ?= ey); simpl; try reflexivity;
    change (Pos.compare_cont Eq my mx) with (Pos.compare my mx);
    change (Pos.compare_cont Eq mx my) with (Pos.compare mx my);
    rewrite (Pos.compare_antisym mx my);
    destruct (mx ?= my)%positive; reflexivity.
Qed.

Lemma leb_not_ltb (x y : Number.t) :
  Number.leb x y = true -> Number.ltb y x = false.
Proof.
  unfold Number.leb, Number.ltb, SFleb, SFltb.
  rewrite (SFcompare_antisym x y).
  destruct (SFcompare x y) as [[| |]|]; simpl; congruence.
Qed.

Lemma ltb_not_leb (x y : Number.t) :
  Number.ltb x y = true -> Number.leb y x = false.
Proof.
  unfold Number.leb, Number.ltb, SFleb, SFltb.
  rewrite (SFcompare_antisym x y).
  destruct (SFcompare x y) as [[| |]|]; simpl; congruence.
Qed.

Lemma leb_not_NaN (x y : Number.t) :
  Number.leb x y = true -> Number.isNaN x = false /\ Number.isNaN y = false.
Proof. destruct x, y; simpl; try discriminate; auto. Qed.

Lemma ltb_not_NaN (x y : Number.t) :
  Number.ltb x y = true -> Number.isNaN x = false /\ Number.isNaN y = false.
Proof. destruct x, y; simpl; try discriminate; auto. Qed.

(** On numbers that are not NaN the order is total. *)
Lemma not_leb_ltb (x y : Number.t) :
  Number.isNaN x = false -> Number.isNaN y = false ->
  Number.leb x y = false -> Number.ltb y x = true.
Proof.
  unfold Number.leb, Number.ltb, SFleb, SFltb.
  rewrite (SFcompare_antisym x y).
  intros Hx Hy.
  destruct (SFcompare x y) as [c|] eqn:E.
  - destruct c; simpl; congruence.
  - destruct x, y; simpl in *; discriminate.
Qed.

(** A number at or above the threshold is neither negative nor below it. *)
Lemma above_threshold (s : Number.t) :
  Number.leb PROTECTION_THRESHOLD s = true ->
  Number.isNaN s = false /\ Number.ltb s zero = false
  /\ Number.ltb s PROTECTION_THRESHOLD = false.
Proof.
  intros H. split; [apply (leb_not_NaN _ _ H)|].
  split; [|apply leb_not_ltb; exact H].
  destruct s as [[]|[]| |[] m e]; try reflexivity; discriminate H.
Qed.

(** [toFixed] picks the nearest multiple of 1/100, the larger of two. *)
Lemma nearest_cents_spec (m : positive) (p : positive) :
  let D := Z.pow_pos 2 p in
  let n := Number.nearest_cents m (Zneg p) in
  200 * Zpos m - D < 2 * D * n <= 200 * Zpos m + D.
Proof.
  cbv zeta. unfold Number.nearest_cents.
  assert (HD : 0 < Z.pow_pos 2 p) by (rewrite Z.pow_pos_fold; apply Z.pow_pos_nonneg; lia).
  set (D := Z.pow_pos 2 p) in *.
  pose proof (Z.div_mod (200 * Zpos m + D) (2 * D) ltac:(lia)) as E.
  pose proof (Z.mod_pos_bound (200 * Zpos m + D) (2 * D) ltac:(lia)) as B.
  set (q := (200 * Zpos m + D) / (2 * D)) in *.
  set (r := (200 * Zpos m + D) mod (2 * D)) in *.
  clearbody r q D. nia.
Qed.

Lemma nearest_cents_nonneg (m : positive) (e : Z) :
  0 <= Number.nearest_cents m e.
Proof.
  destruct e as [|p|p]; unfold Number.nearest_cents.
  - lia.
  - apply Z.mul_nonneg_nonneg; [lia | apply Z.pow_nonneg; lia].
  - assert (HD : 0 < Z.pow_pos 2 p)
      by (rewrite Z.pow_pos_fold; apply Z.pow_pos_nonneg; lia).
    apply Z.div_pos; lia.
Qed.

(** ** Keys of the map *)

Lemma SFeqb_finite (s1 s2 : bool) (m1 m2 : positive) (e1 e2 : Z) :
  SFeqb (S754_finite s1 m1 e1) (S754_finite s2 m2 e2) = true
  <-> s1 = s2 /\ m1 = m2 /\ e1 = e2.
Proof.
  unfold SFeqb, SFcompare.
  change (Pos.compare_cont Eq m1 m2) with (Pos.compare m1 m2).
  destruct s1, s2; try (split; [discriminate | intros (H & _); discriminate H]);
    destruct (Z.compare_spec e1 e2) as [He|He|He];
    try (split; [discriminate | intros (_ & _ & H); lia]);
    destruct (Pos.compare_spec m1 m2) as [Hm|Hm|Hm]; simpl;
    try (split; [discriminate | intros (_ & H & _); lia]);
    (split; [intros _; auto | reflexivity]).
Qed.

Lemma SameValueZero_canon (a b : JsValue) :
  SameValueZero a b = true <-> canon a = canon b.
Proof.
  destruct a as [| |x|x|x|x], b as [| |y|y|y|y]; simpl;
    try (split; intros H; (reflexivity || discriminate H));
    try (destruct x; split; discriminate);
    try (destruct y; split; discriminate).
  - rewrite Bool.eqb_true_iff. split; congruence.
  - destruct x as [sx|sx| |sx mx ex], y as [sy|sy| |sy my ey];
      try (split; intros H; (reflexivity || discriminate H));
      try (destruct sx; split; intros H; (reflexivity || discriminate H));
      try (destruct sy; split; intros H; (reflexivity || discriminate H)).
    + destruct sx, sy; split; intros H; (reflexivity || discriminate H).
    + rewrite orb_false_l, SFeqb_finite.
      split; [intros (-> & -> & ->); reflexivity | intros H; injection H; auto].
  - rewrite String.eqb_eq. split; congruence.
  - rewrite Pos.eqb_eq. split; congruence.
Qed.

Lemma SameValueZero_refl (a : JsValue) : SameValueZero a a = true.
Proof. apply SameValueZero_canon. reflexivity. Qed.

Lemma SameValueZero_sym (a b : JsValue) : SameValueZero a b = SameValueZero b a.
Proof.
  destruct (SameValueZero a b) eqn:E, (SameValueZero b a) eqn:F; try reflexivity.
  - apply SameValueZero_canon in E. symmetry in E.
    apply SameValueZero_canon in E. congruence.
  - apply SameValueZero_canon in F. symmetry in F.
    apply SameValueZero_canon in F. congruence.
Qed.

(** Two keys the map identifies compare alike with every third one. *)
Lemma SameValueZero_compat (a b c : JsValue) :
  SameValueZero a b = true -> SameValueZero a c = SameValueZero b c.
Proof.
  intros H. apply SameValueZero_canon in H.
  destruct (SameValueZero a c) eqn:E, (SameValueZero b c) eqn:F; try reflexivity.
  - apply SameValueZero_canon in E.
    assert (G : canon b = canon c) by congruence.
    apply SameValueZero_canon in G. congruence.
  - apply SameValueZero_canon in F.
    assert (G : canon a = canon c) by congruence.
    apply SameValueZero_canon in G. congruence.
Qed.

(** ** The map operations *)

Lemma get_set_same (k k' v : JsValue) (m : JsMap.t) :
  SameValueZero k k' = true -> JsMap.get k' (JsMap.set k v m) = v.
Proof.
  intros H. induction m as [|[k0 v0] m IH]; simpl.
  - rewrite H. reflexivity.
  - destruct (SameValueZero k0 k) eqn:E; simpl.
    + rewrite (SameValueZero_compat k0 k k' E), H. reflexivity.
    + rewrite (SameValueZero_sym k0 k'), <- (SameValueZero_compat k k' k0 H),
        (SameValueZero_sym k k0), E.
      exact IH.
Qed.

Lemma get_set_other (k k' v : JsValue) (m : JsMap.t) :
  SameValueZero k k' = false ->
  JsMap.get k' (JsMap.set k v m) = JsMap.get k' m.
Proof.
  intros H. induction m as [|[k0 v0] m IH]; simpl.
  - rewrite H. reflexivity.
  - destruct (SameValueZero k0 k) eqn:E; simpl.
    + rewrite (SameValueZero_compat k0 k k' E), H. reflexivity.
    + rewrite IH. reflexivity.
Qed.

Lemma get_delete_same (k k' : JsValue) (m : JsMap.t) :
  SameValueZero k k' = true -> JsMap.get k' (JsMap.delete k m) = JsUndefined.
Proof.
  intros H. unfold JsMap.delete. induction m as [|[k0 v0] m IH]; simpl.
  - reflexivity.
  - destruct (SameValueZero k0 k) eqn:E; simpl.
    + exact IH.
    + rewrite (SameValueZero_sym k0 k'), <- (SameValueZero_compat k k' k0 H),
        (SameValueZero_sym k k0), E.
      exact IH.
Qed.

Lemma get_delete_other (k k' : JsValue) (m : JsMap.t) :
  SameValueZero k k' = false ->
  JsMap.get k' (JsMap.delete k m) = JsMap.get k' m.
Proof.
  intros H. unfold JsMap.delete. induction m as [|[k0 v0] m IH]; simpl.
  - reflexivity.
  - destruct (SameValueZero k0 k) eqn:E; simpl.
    + rewrite (SameValueZero_compat k0 k k' E), H. exact IH.
    + rewrite IH. reflexivity.
Qed.

(** ** The handler, branch by branch *)

Lemma falsy_is_not_true (v : JsValue) : ToBoolean v = false -> is_true v = false.
Proof. destruct v as [| |[]| | |]; simpl; congruence. Qed.

Lemma is_true_iff (v : JsValue) : is_true v = true <-> v = JsBool true.
Proof.
  destruct v as [| |[]| | |]; simpl; split; intros H;
    try reflexivity; discriminate H.
Qed.

Lemma withLock_enter_free (w : World) (j : Job) :
  ToBoolean (JsMap.get (key j) (locks w)) = false ->
  withLock_enter w j
  = (mkWorld (JsMap.set (key j) (JsBool true) (locks w)) (calls w ++ [call j]),
     InFlight j).
Proof. intros H. unfold withLock_enter. rewrite H. reflexivity. Qed.

Lemma withLock_enter_busy (w : World) (j : Job) :
  ToBoolean (JsMap.get (key j) (locks w)) = true ->
  withLock_enter w j = (w, Waiting j).
Proof. intros H. unfold withLock_enter. rewrite H. reflexivity. Qed.

Lemma withLock_enter_not_Done (w : World) (j : Job) (w' : World) (r : Response) :
  withLock_enter w j <> (w', Done r).
Proof.
  unfold withLock_enter.
  destruct (ToBoolean (JsMap.get (key j) (locks w))); intros H; discriminate H.
Qed.

(** A request whose job finds its lock free makes exactly the call of the
    job, and is answered once the call settles. *)
Lemma serve_free (remote : FetchRequest -> FetchOutcome) (w : World) (b : Body)
      (j : Job) :
  handler_entry w b = withLock_enter w j ->
  ToBoolean (JsMap.get (key j) (locks w)) = false ->
  calls (fst (serve remote w b)) = calls w ++ [call j]
  /\ exists r, snd (serve remote w b) = Done r.
Proof.
  intros E F. unfold serve. rewrite E, (withLock_enter_free w j F).
  simpl. split; [reflexivity | eexists; reflexivity].
Qed.

Lemma entry_reset (w : World) (b : Body) (p : Number.t) :
  is_true (reset b) = true -> new_price b = JsNumber p ->
  Number.ltb zero p = true ->
  handler_entry w b
  = match ToString (js_or (variant_id b) PROTECTION_VARIANT_DYNAMIC) with
    | None => (w, Done (caught conversion_error))
    | Some _ =>
        withLock_enter w
          (reset_job (js_or (variant_id b) PROTECTION_VARIANT_DYNAMIC) p)
    end.
Proof.
  intros R P L. unfold handler_entry. rewrite R, P.
  rewrite (proj2 (ltb_not_NaN _ _ L)), (ltb_not_leb _ _ L). reflexivity.
Qed.

Lemma entry_reset_converted (w : World) (b : Body) (p : Number.t) :
  is_true (reset b) = true -> new_price b = JsNumber p ->
  Number.ltb zero p = true ->
  ToString (js_or (variant_id b) PROTECTION_VARIANT_DYNAMIC) <> None ->
  handler_entry w b
  = withLock_enter w
      (reset_job (js_or (variant_id b) PROTECTION_VARIANT_DYNAMIC) p).
Proof.
  intros R P L T. rewrite (entry_reset w b p R P L).
  destruct (ToString (js_or (variant_id b) PROTECTION_VARIANT_DYNAMIC));
    [reflexivity | contradiction T; reflexivity].
Qed.

Lemma entry_reset_invalid (w : World) (b : Body) :
  is_true (reset b) = true ->
  (forall p, new_price b = JsNumber p ->
             Number.isNaN p = true \/ Number.leb p zero = true) ->
  handler_entry w b = (w, Done (bad_request "Invalid new_price for reset")).
Proof.
  intros R P. unfold handler_entry. rewrite R.
  destruct (new_price b) as [| | |p| |]; try reflexivity.
  destruct (P p eq_refl) as [H|H]; rewrite H; [|rewrite orb_true_r]; reflexivity.
Qed.

Lemma entry_subtotal_invalid (w : World) (b : Body) :
  is_true (reset b) = false ->
  (forall s, subtotal b = JsNumber s ->
             Number.isNaN s = true \/ Number.ltb s zero = true) ->
  handler_entry w b
  = (w, Done (bad_request "subtotal must be a positive number (USD)")).
Proof.
  intros R P. unfold handler_entry. rewrite R.
  destruct (subtotal b) as [| | |s| |]; try reflexivity.
  destruct (P s eq_refl) as [H|H]; rewrite H; [|rewrite orb_true_r]; reflexivity.
Qed.

Lemma entry_fixed (w : World) (b : Body) (s : Number.t) :
  is_true (reset b) = false -> subtotal b = JsNumber s ->
  Number.leb zero s = true -> Number.ltb s PROTECTION_THRESHOLD = true ->
  handler_entry w b = withLock_enter w (fixed_job s).
Proof.
  intros R S L T. unfold handler_entry. rewrite R, S.
  rewrite (proj2 (leb_not_NaN _ _ L)), (leb_not_ltb _ _ L), T. reflexivity.
Qed.

Lemma entry_dynamic (w : World) (b : Body) (s : Number.t) :
  is_true (reset b) = false -> subtotal b = JsNumber s ->
  Number.leb PROTECTION_THRESHOLD s = true ->
  handler_entry w b = withLock_enter w (dynamic_job s).
Proof.
  intros R S L. unfold handler_entry. rewrite R, S.
  destruct (above_threshold s L) as (N & Z & T).
  rewrite N, Z, T. reflexivity.
Qed.

(** Every job the handler hands to [withLock] locks the identifier it
    updates; the identifier comes from the request in reset mode only. *)
Lemma entry_job (w : World) (b : Body) :
  (exists r, handler_entry w b = (w, Done r))
  \/ (exists j, handler_entry w b = withLock_enter w j
                /\ key j = variantId (call j)
                /\ variantId (call j)
                   = if is_true (reset b)
                     then js_or (variant_id b) PROTECTION_VARIANT_DYNAMIC
                     else PROTECTION_VARIANT_DYNAMIC).
Proof.
  unfold handler_entry. destruct (is_true (reset b)).
  - destruct (new_price b) as [| | |p| |]; try (left; eexists; reflexivity).
    destruct (Number.isNaN p || Number.leb p zero);
      [left; eexists; reflexivity |].
    destruct (ToString (js_or (variant_id b) PROTECTION_VARIANT_DYNAMIC));
      [right; eexists; repeat split | left; eexists; reflexivity].
  - destruct (subtotal b) as [| | |s| |]; try (left; eexists; reflexivity).
    destruct (Number.isNaN s || Number.ltb s zero);
      [left; eexists; reflexivity |].
    destruct (Number.ltb s PROTECTION_THRESHOLD);
      right; eexists; repeat split.
Qed.

(** ** The lock under interleaving *)

Lemma in_flight_app (v : JsValue) (l1 l2 : list Task) :
  in_flight v (l1 ++ l2) = (in_flight v l1 + in_flight v l2)%nat.
Proof. unfold in_flight. rewrite filter_app, length_app. reflexivity. Qed.

Lemma in_flight_insert (v : JsValue) (l1 l2 : list Task) (t : Task) :
  in_flight v (l1 ++ t :: l2)
  = ((if updating v t then 1 else 0) + in_flight v (l1 ++ l2))%nat.
Proof.
  rewrite !in_flight_app. unfold in_flight at 2. simpl.
  destruct (updating v t); simpl; fold (in_flight v l2); lia.
Qed.

Lemma in_flight_compat (a b : JsValue) (ts : list Task) :
  SameValueZero a b = true -> in_flight a ts = in_flight b ts.
Proof.
  intros H. unfold in_flight. f_equal. apply filter_ext. intros [j|j|r]; simpl;
    try reflexivity.
  rewrite (SameValueZero_sym _ a), (SameValueZero_sym _ b).
  apply SameValueZero_compat. exact H.
Qed.

Lemma enter_preserves (w : World) (l1 l2 : list Task) (j : Job) (w' : World)
      (t : Task) :
  key j = variantId (call j) ->
  lock_inv w (l1 ++ l2) ->
  withLock_enter w j = (w', t) ->
  task_wf t /\ lock_inv w' (l1 ++ t :: l2).
Proof.
  intros W I E. unfold withLock_enter in E.
  destruct (ToBoolean (JsMap.get (key j) (locks w))) eqn:F;
    injection E as <- <-; (split; [exact W|]); intros v;
    rewrite in_flight_insert; simpl.
  - apply I.
  - destruct (I (key j)) as [G _]. rewrite G in F.
    destruct (in_flight (key j) (l1 ++ l2)) eqn:C; [clear F G | discriminate F].
    rewrite <- W. destruct (SameValueZero (key j) v) eqn:S.
    + rewrite (get_set_same _ _ _ _ S), <- (in_flight_compat _ _ _ S), C.
      split; [reflexivity | lia].
    + rewrite (get_set_other _ _ _ _ S). apply I.
Qed.

Lemma exit_preserves (w : World) (l1 l2 : list Task) (j : Job) (r : Response) :
  key j = variantId (call j) ->
  lock_inv w (l1 ++ InFlight j :: l2) ->
  lock_inv (withLock_exit w j) (l1 ++ Done r :: l2).
Proof.
  intros W I v. specialize (I v).
  rewrite in_flight_insert in I. rewrite in_flight_insert. simpl in *.
  rewrite <- W in I. destruct (SameValueZero (key j) v) eqn:S.
  - rewrite (get_delete_same _ _ _ S).
    destruct I as [_ I]. destruct (in_flight v (l1 ++ l2)); [split; [reflexivity | lia] | lia].
  - rewrite (get_delete_other _ _ _ S). exact I.
Qed.

Lemma lock_inv_skip (w : World) (l1 l2 : list Task) (t : Task) :
  (forall v, updating v t = false) ->
  lock_inv w (l1 ++ t :: l2) <-> lock_inv w (l1 ++ l2).
Proof.
  intros U. unfold lock_inv.
  split; intros I v; specialize (I v); rewrite in_flight_insert, U in *; exact I.
Qed.

Lemma Forall_replace (P : Task -> Prop) (l1 l2 : list Task) (t t' : Task) :
  Forall P (l1 ++ t :: l2) -> P t' -> Forall P (l1 ++ t' :: l2).
Proof.
  intros F H. apply Forall_app in F. destruct F as [F1 F2].
  apply Forall_app. split; [exact F1|].
  inversion F2; subst. constructor; assumption.
Qed.

Lemma Forall_at (P : Task -> Prop) (l1 l2 : list Task) (t : Task) :
  Forall P (l1 ++ t :: l2) -> P t.
Proof.
  intros F. apply Forall_app in F. destruct F as [_ F].
  inversion F; assumption.
Qed.

Lemma step_invariant (s s' : System) : invariant s -> step s s' -> invariant s'.
Proof.
  intros [WF I] St. destruct St as [w ts b w' t E | w l1 j l2 w' t E | w l1 j l2 o w' t E];
    simpl in *.
  - destruct (entry_job w b) as [(r & D) | (j & D & W & _)]; rewrite D in E.
    + injection E as <- <-. split.
      * apply Forall_app. split; [exact WF | repeat constructor].
      * apply (lock_inv_skip w ts [] (Done r)); [reflexivity|].
        rewrite app_nil_r. exact I.
    + rewrite <- (app_nil_r ts) in I.
      destruct (enter_preserves _ _ _ _ _ _ W I E) as [Wt I'].
      split; [|exact I'].
      apply Forall_app. split; [exact WF | repeat constructor; exact Wt].
  - pose proof (Forall_at _ _ _ _ WF) as W. simpl in W.
    apply lock_inv_skip in I; [|reflexivity].
    destruct (enter_preserves _ _ _ _ _ _ W I E) as [Wt I'].
    split; [|exact I']. exact (Forall_replace _ _ _ _ _ WF Wt).
  - pose proof (Forall_at _ _ _ _ WF) as W. simpl in W.
    unfold settle in E. injection E as <- <-. split.
    + apply (Forall_replace _ _ _ _ _ WF). simpl. trivial.
    + apply exit_preserves; assumption.
Qed.

Lemma reachable_invariant (s : System) : reachable s -> invariant s.
Proof.
  induction 1 as [|s s' _ IH St].
  - split; [constructor|]. intros v. unfold in_flight. simpl.
    split; [reflexivity | lia].
  - exact (step_invariant s s' IH St).
Qed.

(** ** The literals *)

Example fixedPrice_is_2_17 :
  fixedPrice = S754_finite false 4886405595696988 (-51)
  /\ within_half_ulp 4886405595696988 51 217 100.
Proof. split; [reflexivity | unfold within_half_ulp; vm_compute; discriminate]. Qed.

Example PROTECTION_PERCENT_is_0_03 :
  PROTECTION_PERCENT = S754_finite false 8646911284551352 (-58)
  /\ within_half_ulp 8646911284551352 58 3 100.
Proof. split; [reflexivity | unfold within_half_ulp; vm_compute; discriminate]. Qed.

Example PROTECTION_BASE_INCREMENT_is_0_01 :
  PROTECTION_BASE_INCREMENT = S754_finite false 5764607523034235 (-59)
  /\ within_half_ulp 5764607523034235 59 1 100.
Proof. split; [reflexivity | unfold within_half_ulp; vm_compute; discriminate]. Qed.

Example prices_4_51_3_01_30_01 :
  Number.of_decimal false 451 2 = S754_finite false 5077808579860234 (-50)
  /\ within_half_ulp 5077808579860234 50 451 100
  /\ Number.of_decimal false 301 2 = S754_finite false 6777917439192596 (-51)
  /\ within_half_ulp 6777917439192596 51 301 100
  /\ Number.of_decimal false 3001 2 = S754_finite false 8447064051086787 (-48)
  /\ within_half_ulp 8447064051086787 48 3001 100.
Proof.
  repeat split; try reflexivity; unfold within_half_ulp; vm_compute; discriminate.
Qed.

Example PROTECTION_THRESHOLD_is_100 :
  PROTECTION_THRESHOLD = S754_finite false 7036874417766400 (-46)
  /\ 7036874417766400 = 100 * 2 ^ 46.
Proof. split; reflexivity. Qed.

(** ** The pricing policy *)

(** C1: a request whose [reset] is falsy and whose [subtotal] is a number
    [s] with [0 <= s < 100] takes the fixed-price path: the job handed to
    [withLock] is the fixed one, and once the lock is free the remote update
    is called with the default variant and the price 2.17. *)
Theorem C1_fixed_price_below_threshold
        (remote : FetchRequest -> FetchOutcome) (w : World) (b : Body)
        (s : Number.t) :
  ToBoolean (reset b) = false ->
  subtotal b = JsNumber s ->
  Number.leb zero s = true ->
  Number.ltb s PROTECTION_THRESHOLD = true ->
  handler_entry w b = withLock_enter w (fixed_job s)
  /\ (ToBoolean (JsMap.get PROTECTION_VARIANT_DYNAMIC (locks w)) = false ->
      calls (fst (serve remote w b))
      = calls w ++ [mkCall PROTECTION_VARIANT_DYNAMIC
                           (Number.of_decimal false 217 2)]).
Proof.
  intros R S L T.
  pose proof (entry_fixed w b s (falsy_is_not_true _ R) S L T) as E.
  split; [exact E|]. intros F.
  exact (proj1 (serve_free remote w b (fixed_job s) E F)).
Qed.

Lemma C1_fixed_price_witness :
  calls (fst (serve remote_down world0 (subtotal_body 9999 2)))
  = [mkCall PROTECTION_VARIANT_DYNAMIC (Number.of_decimal false 217 2)].
Proof.
  apply (C1_fixed_price_below_threshold remote_down world0
           (subtotal_body 9999 2) (Number.of_decimal false 9999 2));
    reflexivity.
Defined.

(** C2, as the code has it: with [reset] falsy and a numeric [subtotal]
    [s >= 100], the price passed to the remote update is
    [Number(x.toFixed(2))] for the binary64 value
    [x = s * 0.03 + 0.01] (product and sum each rounded to binary64).
    When [x] is finite and below [10^21], [toFixed] prints the multiple of
    1/100 nearest to the exact value of [x], the larger of two.  For 150,
    100 and 1000 the price is 4.51, 3.01 and 30.01. *)
Theorem C2_dynamic_price_above_threshold
        (remote : FetchRequest -> FetchOutcome) (w : World) (b : Body)
        (s : Number.t) :
  ToBoolean (reset b) = false ->
  subtotal b = JsNumber s ->
  Number.leb PROTECTION_THRESHOLD s = true ->
  let x := Number.add (Number.mul s PROTECTION_PERCENT) PROTECTION_BASE_INCREMENT in
  handler_entry w b = withLock_enter w (dynamic_job s)
  /\ (ToBoolean (JsMap.get PROTECTION_VARIANT_DYNAMIC (locks w)) = false ->
      calls (fst (serve remote w b))
      = calls w ++ [mkCall PROTECTION_VARIANT_DYNAMIC
                           (Number.ofString (Number.toFixed2 x))])
  /\ (forall m p, x = S754_finite false m (Zneg p) ->
                  Number.ge_1e21 m (Zneg p) = false ->
      exists n : Z,
        Number.toFixed2 x = Number.NS_Fixed2 false (Z.to_N n) /\ 0 <= n
        /\ 200 * Zpos m - Z.pow_pos 2 p < 2 * Z.pow_pos 2 p * n
           <= 200 * Zpos m + Z.pow_pos 2 p)
  /\ (forall m e, x = S754_finite false m e -> 0 <= e ->
                  Number.ge_1e21 m e = false ->
      Number.toFixed2 x = Number.NS_Fixed2 false (Z.to_N (100 * Zpos m * 2 ^ e)))
  /\ targetPrice (Number.of_decimal false 150 0) = Number.of_decimal false 451 2
  /\ targetPrice (Number.of_decimal false 100 0) = Number.of_decimal false 301 2
  /\ targetPrice (Number.of_decimal false 1000 0) = Number.of_decimal false 3001 2.
Proof.
  intros R S L x.
  pose proof (entry_dynamic w b s (falsy_is_not_true _ R) S L) as E.
  split; [exact E|]. split.
  { intros F. exact (proj1 (serve_free remote w b (dynamic_job s) E F)). }
  split.
  { intros m p -> G. exists (Number.nearest_cents m (Zneg p)).
    split; [unfold Number.toFixed2; rewrite G; reflexivity|].
    split; [apply nearest_cents_nonneg | apply nearest_cents_spec]. }
  split.
  { intros m e -> P G. unfold Number.toFixed2. rewrite G.
    destruct e as [|q|q]; [reflexivity | reflexivity | lia]. }
  repeat split; vm_compute; reflexivity.
Qed.

Lemma C2_dynamic_price_witness :
  calls (fst (serve remote_down world0 (subtotal_body 150 0)))
  = [mkCall PROTECTION_VARIANT_DYNAMIC (Number.of_decimal false 451 2)].
Proof.
  apply (C2_dynamic_price_above_threshold remote_down world0
           (subtotal_body 150 0) (Number.of_decimal false 150 0));
    reflexivity.
Defined.

(** C2, as worded, fails at the subtotal 100.5: [0.03 * 100.5 + 0.01] is
    3.025, which rounds half-up to 3.03, but the binary64 sum lies just below
    3.025 and the handler passes 3.02. *)
Lemma C2_half_up_counterexample :
  let s := Number.of_decimal false 1005 1 in
  s = S754_finite false (201 * 2 ^ 45) (-46)
  /\ Number.leb PROTECTION_THRESHOLD s = true
  /\ spec_dynamic_price s = Some (Number.of_decimal false 303 2)
  /\ calls (fst (serve remote_down world0 (subtotal_body 1005 1)))
     = [mkCall PROTECTION_VARIANT_DYNAMIC (Number.of_decimal false 302 2)]
  /\ Number.of_decimal false 302 2 <> Number.of_decimal false 303 2.
Proof.
  cbv zeta. repeat split; try (vm_compute; reflexivity).
  vm_compute. discriminate.
Qed.

(** C3: a request with [reset === true] and a [new_price] that is a number
    above 0 hands that very number to the remote update, whatever the
    [subtotal] field holds; no rule of the calculation is applied.  The job
    is the reset one, the call made once the lock is free carries
    [new_price], and no call the request makes carries another price.  (When
    [variant_id] cannot be spliced in the log line, the request is answered
    500 before any call.) *)
Theorem C3_reset_passes_new_price
        (remote : FetchRequest -> FetchOutcome) (w : World) (b : Body)
        (p : Number.t) :
  reset b = JsBool true ->
  new_price b = JsNumber p ->
  Number.ltb zero p = true ->
  let v := js_or (variant_id b) PROTECTION_VARIANT_DYNAMIC in
  (ToString v <> None ->
   handler_entry w b = withLock_enter w (reset_job v p)
   /\ (ToBoolean (JsMap.get v (locks w)) = false ->
       calls (fst (serve remote w b)) = calls w ++ [mkCall v p]))
  /\ (ToString v = None -> serve remote w b = (w, Done (caught conversion_error)))
  /\ (forall c, In c (calls (fst (serve remote w b))) ->
                In c (calls w) \/ c = mkCall v p).
Proof.
  intros R P L v.
  pose proof (entry_reset w b p (proj2 (is_true_iff _) R) P L) as E. fold v in E.
  split; [|split].
  - intros T.
    assert (E' : handler_entry w b = withLock_enter w (reset_job v p)).
    { rewrite E. destruct (ToString v); [reflexivity | contradiction T; reflexivity]. }
    split; [exact E'|]. intros F.
    exact (proj1 (serve_free remote w b (reset_job v p) E' F)).
  - intros T. unfold serve. rewrite E, T. reflexivity.
  - intros c. unfold serve. rewrite E. destruct (ToString v).
    + unfold withLock_enter.
      destruct (ToBoolean (JsMap.get (key (reset_job v p)) (locks w))); simpl.
      * auto.
      * intros I. apply in_app_or in I. destruct I as [I|[I|[]]]; auto.
    + simpl. auto.
Qed.

Lemma C3_reset_witness :
  calls (fst (serve remote_down world0
                (mkBody (JsString "abc") (JsBool true)
                        (JsNumber (Number.of_decimal false 999 2)) JsUndefined)))
  = [mkCall PROTECTION_VARIANT_DYNAMIC (Number.of_decimal false 999 2)].
Proof.
  apply (proj1 (C3_reset_passes_new_price remote_down world0
                  (mkBody (JsString "abc") (JsBool true)
                          (JsNumber (Number.of_decimal false 999 2)) JsUndefined)
                  (Number.of_decimal false 999 2) eq_refl eq_refl eq_refl)).
  - intros H; discriminate H.
  - reflexivity.
Defined.

(** ** Validation *)

(** C4, as the code has it: with [reset === true] the request is refused
    with 400 exactly when [new_price] is not a number above 0, and otherwise
    exactly when [subtotal] is not a number at or above 0.  NaN satisfies
    neither comparison; finiteness is not tested, so [+Infinity] passes on
    both paths. *)
Theorem C4_validation (w : World) (b : Body) :
  (is_true (reset b) = true ->
   (handler_entry w b = (w, Done (bad_request "Invalid new_price for reset"))
    <-> ~ exists p, new_price b = JsNumber p /\ Number.ltb zero p = true))
  /\ (is_true (reset b) = false ->
      (handler_entry w b
       = (w, Done (bad_request "subtotal must be a positive number (USD)"))
       <-> ~ exists s, subtotal b = JsNumber s /\ Number.leb zero s = true))
  /\ Number.ltb zero (S754_infinity false) = true
  /\ Number.leb zero (S754_infinity false) = true.
Proof.
  split; [|split; [|split; reflexivity]]; intros R; split.
  - intros E (p & P & L). rewrite (entry_reset w b p R P L) in E.
    destruct (ToString (js_or (variant_id b) PROTECTION_VARIANT_DYNAMIC));
      [exact (withLock_enter_not_Done _ _ _ _ E) | discriminate E].
  - intros N. apply entry_reset_invalid; [exact R|]. intros p P.
    destruct (Number.isNaN p) eqn:Hn; [left; reflexivity | right].
    destruct (Number.leb p zero) eqn:Hl; [reflexivity|].
    exfalso. apply N. exists p. split; [exact P|].
    apply not_leb_ltb; [exact Hn | reflexivity | exact Hl].
  - intros E (s & S & L). unfold handler_entry in E. rewrite R, S in E.
    rewrite (proj2 (leb_not_NaN _ _ L)), (leb_not_ltb _ _ L) in E. simpl in E.
    destruct (Number.ltb s PROTECTION_THRESHOLD);
      exact (withLock_enter_not_Done _ _ _ _ E).
  - intros N. apply entry_subtotal_invalid; [exact R|]. intros s S.
    destruct (Number.isNaN s) eqn:Hn; [left; reflexivity | right].
    destruct (Number.ltb s zero) eqn:Hl; [reflexivity|].
    exfalso. apply N. exists s. split; [exact S|].
    destruct (Number.leb zero s) eqn:Hz; [reflexivity|].
    rewrite (not_leb_ltb zero s eq_refl Hn Hz) in Hl. discriminate Hl.
Qed.

Lemma C4_validation_witness :
  (handler_entry world0 (reset_body (S754_zero false))
   = (world0, Done (bad_request "Invalid new_price for reset"))
   <-> ~ exists p, new_price (reset_body (S754_zero false)) = JsNumber p
                   /\ Number.ltb zero p = true)
  /\ (handler_entry world0 (subtotal_body 50 0)
      = (world0, Done (bad_request "subtotal must be a positive number (USD)"))
      <-> ~ exists s, subtotal (subtotal_body 50 0) = JsNumber s
                      /\ Number.leb zero s = true).
Proof.
  split.
  - apply (proj1 (C4_validation world0 (reset_body (S754_zero false)))).
    reflexivity.
  - apply (proj1 (proj2 (C4_validation world0 (subtotal_body 50 0)))).
    reflexivity.
Defined.

(** C4, as worded, fails for [+Infinity]: as [new_price] of a reset and as
    [subtotal] of a calculation it is not refused, the remote update is called
    with the price [Infinity] and the payload carries the text "Infinity". *)
Lemma C4_infinity_counterexample :
  let inf := S754_infinity false in
  handler_entry world0 (reset_body inf)
  = (mkWorld [(PROTECTION_VARIANT_DYNAMIC, JsBool true)]
             [mkCall PROTECTION_VARIANT_DYNAMIC inf],
     InFlight (reset_job PROTECTION_VARIANT_DYNAMIC inf))
  /\ handler_entry world0 (mkBody (JsNumber inf) JsUndefined JsUndefined JsUndefined)
     = (mkWorld [(PROTECTION_VARIANT_DYNAMIC, JsBool true)]
                [mkCall PROTECTION_VARIANT_DYNAMIC inf],
        InFlight (dynamic_job inf))
  /\ fetch_request (mkCall PROTECTION_VARIANT_DYNAMIC inf)
     = mkRequest PROTECTION_VARIANT_DYNAMIC (Number.NS_Infinity false).
Proof. cbv zeta. repeat split; vm_compute; reflexivity. Qed.

(** C5: a request that fails validation - [reset === true] with [new_price]
    absent, not a number, NaN or at most 0, or [reset] falsy with [subtotal]
    absent, not a number, NaN or below 0 - is answered 400 with
    [{success: false, error}]; the lock map and the log of remote calls are
    left as they were, also when the request is served to its end. *)
Theorem C5_invalid_input_no_remote_call
        (remote : FetchRequest -> FetchOutcome) (w : World) (b : Body) :
  (reset b = JsBool true
   /\ forall p, new_price b = JsNumber p ->
                Number.isNaN p = true \/ Number.leb p zero = true)
  \/ (ToBoolean (reset b) = false
      /\ forall s, subtotal b = JsNumber s ->
                   Number.isNaN s = true \/ Number.ltb s zero = true) ->
  exists error : string,
    handler_entry w b = (w, Done (mkResp 400 (Failure error)))
    /\ serve remote w b = (w, Done (mkResp 400 (Failure error))).
Proof.
  intros [[R P] | [R S]].
  - exists "Invalid new_price for reset"%string.
    pose proof (entry_reset_invalid w b (proj2 (is_true_iff _) R) P) as E.
    split; [exact E|]. unfold serve. rewrite E. reflexivity.
  - exists "subtotal must be a positive number (USD)"%string.
    pose proof (entry_subtotal_invalid w b (falsy_is_not_true _ R) S) as E.
    split; [exact E|]. unfold serve. rewrite E. reflexivity.
Qed.

Lemma C5_invalid_input_witness :
  exists error : string,
    handler_entry world0
      (mkBody JsUndefined (JsBool true) (JsString "abc") JsUndefined)
    = (world0, Done (mkResp 400 (Failure error)))
    /\ serve remote_down world0
         (mkBody JsUndefined (JsBool true) (JsString "abc") JsUndefined)
       = (world0, Done (mkResp 400 (Failure error))).
Proof.
  apply (C5_invalid_input_no_remote_call remote_down world0
           (mkBody JsUndefined (JsBool true) (JsString "abc") JsUndefined)).
  left. split; [reflexivity | intros p H; discriminate H].
Defined.

(** C10: any [reset] other than the boolean [true] - also a truthy one such
    as [1] or ["true"] - leads to calculation mode.  The validation of
    [subtotal] applies: a [subtotal] that is absent, not a number, NaN or
    below 0 is refused with 400 even when [new_price] is valid; a [subtotal]
    [s] with [0 <= s < 100] gives the fixed job and one at or above 100 the
    dynamic job, so the price is never [new_price].  The handler does what it
    does for the same [subtotal] with no [reset], whatever [new_price] and
    [variant_id] hold. *)
Theorem C10_reset_only_when_true (w : World) (b : Body) (np vid : JsValue) :
  reset b <> JsBool true ->
  (forall s, subtotal b = JsNumber s ->
             Number.leb zero s = true ->
             Number.ltb s PROTECTION_THRESHOLD = true ->
             handler_entry w b = withLock_enter w (fixed_job s))
  /\ (forall s, subtotal b = JsNumber s ->
                Number.leb PROTECTION_THRESHOLD s = true ->
                handler_entry w b = withLock_enter w (dynamic_job s))
  /\ ((forall s, subtotal b = JsNumber s ->
                 Number.isNaN s = true \/ Number.ltb s zero = true) ->
      handler_entry w b
      = (w, Done (bad_request "subtotal must be a positive number (USD)")))
  /\ handler_entry w b = handler_entry w (mkBody (subtotal b) JsUndefined np vid).
Proof.
  intros R.
  assert (T : is_true (reset b) = false).
  { destruct (is_true (reset b)) eqn:T; [|reflexivity].
    apply is_true_iff in T. contradiction. }
  split; [|split; [|split]].
  - intros s S L H. exact (entry_fixed w b s T S L H).
  - intros s S L. exact (entry_dynamic w b s T S L).
  - intros H. exact (entry_subtotal_invalid w b T H).
  - unfold handler_entry. rewrite T. reflexivity.
Qed.

Lemma C10_reset_witness :
  handler_entry world0
    (mkBody (JsNumber (Number.of_decimal false 50 0)) (JsString "true")
            (JsNumber (Number.of_decimal false 999 2)) JsUndefined)
  = (mkWorld [(PROTECTION_VARIANT_DYNAMIC, JsBool true)]
             [mkCall PROTECTION_VARIANT_DYNAMIC (Number.of_decimal false 217 2)],
     InFlight (fixed_job (Number.of_decimal false 50 0))).
Proof.
  apply (proj1 (C10_reset_only_when_true world0
                  (mkBody (JsNumber (Number.of_decimal false 50 0))
                          (JsString "true")
                          (JsNumber (Number.of_decimal false 999 2)) JsUndefined)
                  JsUndefined JsUndefined
                  ltac:(intros H; discriminate H))
               (Number.of_decimal false 50 0));
    reflexivity.
Defined.

(** ** The variant that is updated *)

(** C6, as the code has it: in reset mode the identifier locked and updated
    is the request's [variant_id] when that is truthy and the configured
    default otherwise; in both calculation modes it is the configured default
    whatever [variant_id] holds. *)
Theorem C6_variant_used (w : World) (b : Body) (w' : World) (t : Task) (j : Job) :
  handler_entry w b = (w', t) ->
  t = Waiting j \/ t = InFlight j ->
  key j = variantId (call j)
  /\ variantId (call j)
     = match is_true (reset b), ToBoolean (variant_id b) with
       | true, true => variant_id b
       | _, _ => PROTECTION_VARIANT_DYNAMIC
       end.
Proof.
  intros E T.
  destruct (entry_job w b) as [(r & D) | (j0 & D & K & V)]; rewrite D in E.
  - injection E as _ <-. destruct T as [T|T]; discriminate T.
  - assert (J : j = j0).
    { unfold withLock_enter in E.
      destruct (ToBoolean (JsMap.get (key j0) (locks w)));
        injection E as _ <-; destruct T as [T|T]; congruence. }
    subst j0. split; [exact K|]. rewrite V. unfold js_or.
    destruct (is_true (reset b)), (ToBoolean (variant_id b)); reflexivity.
Qed.

Lemma C6_variant_witness :
  key (reset_job (JsString "123") (Number.of_decimal false 999 2))
  = variantId (call (reset_job (JsString "123") (Number.of_decimal false 999 2)))
  /\ variantId (call (reset_job (JsString "123") (Number.of_decimal false 999 2)))
     = JsString "123".
Proof.
  apply (C6_variant_used world0
           (mkBody JsUndefined (JsBool true)
                   (JsNumber (Number.of_decimal false 999 2)) (JsString "123"))
           (mkWorld [(JsString "123", JsBool true)]
                    [mkCall (JsString "123") (Number.of_decimal false 999 2)])
           (InFlight (reset_job (JsString "123") (Number.of_decimal false 999 2)))).
  - reflexivity.
  - right. reflexivity.
Defined.

(** C6, as worded, fails in calculation mode: a request with the subtotal 50
    (or 150) and [variant_id: "123"] updates the default variant. *)
Lemma C6_variant_id_counterexample :
  calls (fst (serve remote_down world0
                (mkBody (JsNumber (Number.of_decimal false 50 0))
                        JsUndefined JsUndefined (JsString "123"))))
  = [mkCall PROTECTION_VARIANT_DYNAMIC (Number.of_decimal false 217 2)]
  /\ calls (fst (serve remote_down world0
                   (mkBody (JsNumber (Number.of_decimal false 150 0))
                           JsUndefined JsUndefined (JsString "123"))))
     = [mkCall PROTECTION_VARIANT_DYNAMIC (Number.of_decimal false 451 2)]
  /\ PROTECTION_VARIANT_DYNAMIC <> JsString "123".
Proof. repeat split; try (vm_compute; reflexivity). discriminate. Qed.

(** ** Remote errors *)

Lemma append_assoc (a b c : string) : ((a ++ b) ++ c = a ++ b ++ c)%string.
Proof. induction a as [|x a IH]; simpl; [reflexivity | rewrite IH; reflexivity]. Qed.

Lemma append_nil_r (a : string) : (a ++ "" = a)%string.
Proof. induction a as [|x a IH]; simpl; [reflexivity | rewrite IH; reflexivity]. Qed.

Lemma message_contains_status (res : FetchResponse) :
  contains (decimal (status res)) (remote_error_message res).
Proof.
  exists "Shopify Admin API error: "%string,
         (" " ++ statusText res ++ " - " ++ text res)%string.
  reflexivity.
Qed.

Lemma message_contains_text (res : FetchResponse) :
  contains (text res) (remote_error_message res).
Proof.
  exists ("Shopify Admin API error: " ++ decimal (status res) ++ " "
            ++ statusText res ++ " - ")%string, ""%string.
  unfold remote_error_message.
  rewrite append_nil_r, !append_assoc. reflexivity.
Qed.

(** C9: when the remote answers the update with a status outside 200-299,
    [updateVariantPrice] throws an error whose [status] is the remote status
    and whose message holds the status code and the response text; the lock
    is released and the endpoint answers 500 with [{success: false, error}],
    [error] being that message - for a request that found the lock free as
    for one that had to poll first. *)
Theorem C9_remote_error
        (remote : FetchRequest -> FetchOutcome) (w : World) (b : Body)
        (w' : World) (j : Job) (res : FetchResponse) :
  handler_entry w b = (w', InFlight j) ->
  remote (fetch_request (call j)) = FetchResolved res ->
  ok res = false ->
  updateVariantPrice_resume (FetchResolved res)
  = inl (mkError (remote_error_message res) (Some (status res)))
  /\ contains (decimal (status res)) (remote_error_message res)
  /\ contains (text res) (remote_error_message res)
  /\ serve remote w b
     = (withLock_exit w' j,
        Done (mkResp 500 (Failure (remote_error_message res))))
  /\ (forall (w1 : World) (j1 : Job),
         settle w1 j1 (FetchResolved res)
         = (withLock_exit w1 j1,
            Done (mkResp 500 (Failure (remote_error_message res))))).
Proof.
  intros E F K. split; [simpl; rewrite K; reflexivity|].
  split; [apply message_contains_status|].
  split; [apply message_contains_text|].
  split.
  - unfold serve. rewrite E, F. unfold settle. simpl. rewrite K. reflexivity.
  - intros w1 j1. unfold settle. simpl. rewrite K. reflexivity.
Qed.

Lemma C9_remote_error_witness :
  contains "422" (remote_error_message response_422)
  /\ serve remote_422 world0 (subtotal_body 150 0)
     = (mkWorld [] [mkCall PROTECTION_VARIANT_DYNAMIC
                            (Number.of_decimal false 451 2)],
        Done (mkResp 500 (Failure
          "Shopify Admin API error: 422 Unprocessable Entity - price is invalid"))).
Proof.
  pose proof (C9_remote_error remote_422 world0 (subtotal_body 150 0)
                (fst (handler_entry world0 (subtotal_body 150 0)))
                (dynamic_job (Number.of_decimal false 150 0)) response_422
                eq_refl eq_refl eq_refl) as (_ & S & _ & R & _).
  split; [exact S | exact R].
Defined.

(** ** Mutual exclusion and release *)

Lemma step_after_request (s : System) (b : Body) : step s (after_request s b).
Proof.
  destruct s as [w ts]. unfold after_request. simpl.
  destruct (handler_entry w b) as [w' t] eqn:E.
  exact (step_request w ts b w' t E).
Qed.

Lemma in_flight_two (v : JsValue) (l1 l2 l3 : list Task) (j1 j2 : Job) :
  SameValueZero (variantId (call j1)) v = true ->
  SameValueZero (variantId (call j2)) v = true ->
  (2 <= in_flight v (l1 ++ InFlight j1 :: l2 ++ InFlight j2 :: l3))%nat.
Proof.
  intros H1 H2. rewrite in_flight_insert, in_flight_app, in_flight_insert.
  simpl. rewrite H1, H2. lia.
Qed.

(** The lock is exclusive per key of the map: in every state the server can
    reach, whatever the requests and the order in which the event loop runs
    their pieces, at most one remote update is in flight for a given key
    (compared as the map compares keys): two tasks in flight never hold the
    same key. *)
Theorem lock_exclusive_per_key (s : System) (v : JsValue) :
  reachable s ->
  (in_flight v (tasks s) <= 1)%nat
  /\ forall l1 l2 l3 j1 j2,
       tasks s = l1 ++ InFlight j1 :: l2 ++ InFlight j2 :: l3 ->
       SameValueZero (variantId (call j1)) (variantId (call j2)) = false.
Proof.
  intros R. destruct (reachable_invariant s R) as [_ I].
  split; [apply I|]. intros l1 l2 l3 j1 j2 E.
  destruct (SameValueZero (variantId (call j1)) (variantId (call j2))) eqn:S;
    [exfalso | reflexivity].
  pose proof (in_flight_two (variantId (call j2)) l1 l2 l3 j1 j2 S
                (SameValueZero_refl _)) as T.
  rewrite <- E in T. destruct (I (variantId (call j2))) as [_ B]. lia.
Qed.

Lemma lock_exclusive_per_key_witness :
  tasks system_contended
  = [InFlight (fixed_job (Number.of_decimal false 50 0));
     Waiting (dynamic_job (Number.of_decimal false 150 0))]
  /\ (in_flight PROTECTION_VARIANT_DYNAMIC (tasks system_contended) <= 1)%nat.
Proof.
  split; [reflexivity|].
  apply (lock_exclusive_per_key system_contended PROTECTION_VARIANT_DYNAMIC).
  apply (reachable_step (after_request initial (subtotal_body 50 0))).
  - apply (reachable_step initial).
    + exact reachable_initial.
    + exact (step_after_request initial (subtotal_body 50 0)).
  - exact (step_after_request _ (subtotal_body 150 0)).
Defined.

(** C7 does not hold of the code: the lock is keyed by the value passed as
    [variant_id], while the remote update addresses the variant by the text
    of that value.  A reset whose [variant_id] is the number 45626932789401
    and a calculation request, which uses the string "45626932789401", hold
    two different keys; the server reaches a state where both are in flight,
    each with a PUT to the URL of the same variant. *)
Theorem C7_same_variant_twice_in_flight :
  reachable system_same_variant
  /\ tasks system_same_variant
     = [InFlight (reset_job (JsNumber (Number.of_decimal false 45626932789401 0))
                            (Number.of_decimal false 999 2));
        InFlight (fixed_job (Number.of_decimal false 50 0))]
  /\ url_variant (call (reset_job
                          (JsNumber (Number.of_decimal false 45626932789401 0))
                          (Number.of_decimal false 999 2)))
     = Some (Number.Rendered "45626932789401")
  /\ url_variant (call (fixed_job (Number.of_decimal false 50 0)))
     = Some (Number.Rendered "45626932789401")
  /\ List.length (calls (world system_same_variant)) = 2%nat.
Proof.
  split; [|repeat split; vm_compute; reflexivity].
  apply (reachable_step (after_request initial numeric_variant_body)).
  - apply (reachable_step initial).
    + exact reachable_initial.
    + exact (step_after_request initial numeric_variant_body).
  - exact (step_after_request _ (subtotal_body 50 0)).
Qed.

(** C8: when the guarded call settles, with a result or with an error, the
    [finally] block deletes the key, so the map has no entry for it
    afterwards; and in every reachable state the map has no entry for an
    identifier that has no update in flight. *)
Theorem C8_lock_released :
  (forall (w : World) (j : Job) (o : FetchOutcome),
      JsMap.get (key j) (locks (fst (settle w j o))) = JsUndefined)
  /\ (forall (s : System) (v : JsValue),
         reachable s -> in_flight v (tasks s) = O ->
         JsMap.get v (locks (world s)) = JsUndefined).
Proof.
  split.
  - intros w j o. simpl. apply get_delete_same. apply SameValueZero_refl.
  - intros s v R Z. destruct (reachable_invariant s R) as [_ I].
    destruct (I v) as [G _]. rewrite Z in G. exact G.
Qed.

Lemma C8_lock_released_witness :
  tasks system_after_failure = [Done (mkResp 500 (Failure "fetch failed"))]
  /\ JsMap.get PROTECTION_VARIANT_DYNAMIC (locks (world system_after_failure))
     = JsUndefined.
Proof.
  split; [reflexivity|].
  apply (proj2 C8_lock_released system_after_failure PROTECTION_VARIANT_DYNAMIC);
    [|reflexivity].
  apply (reachable_step (after_request initial (subtotal_body 50 0))).
  - apply (reachable_step initial).
    + exact reachable_initial.
    + exact (step_after_request initial (subtotal_body 50 0)).
  - exact (step_settle (world (after_request initial (subtotal_body 50 0))) []
             (fixed_job (Number.of_decimal false 50 0)) []
             (FetchRejected "fetch failed")
             (world system_after_failure)
             (Done (mkResp 500 (Failure "fetch failed"))) eq_refl).
Defined.

(** * Further properties of the code *)

(** ** Acquiring and releasing the lock *)

Lemma get_compat (k k' : JsValue) (m : JsMap.t) :
  SameValueZero k k' = true -> JsMap.get k m = JsMap.get k' m.
Proof.
  intros H. induction m as [|[k0 v0] m IH]; simpl; [reflexivity|].
  rewrite (SameValueZero_sym k0 k), (SameValueZero_sym k0 k'),
    (SameValueZero_compat k k' k0 H), IH.
  reflexivity.
Qed.

Lemma reachable_contended : reachable system_contended.
Proof.
  apply (reachable_step (after_request initial (subtotal_body 50 0))).
  - apply (reachable_step initial).
    + exact reachable_initial.
    + exact (step_after_request initial (subtotal_body 50 0)).
  - exact (step_after_request _ (subtotal_body 150 0)).
Defined.

Lemma reachable_overtaken : reachable system_overtaken.
Proof.
  apply (reachable_step
           (mkSystem (fst (settle (world system_contended)
                                  (fixed_job (Number.of_decimal false 50 0))
                                  (FetchRejected "fetch failed")))
                     [snd (settle (world system_contended)
                                  (fixed_job (Number.of_decimal false 50 0))
                                  (FetchRejected "fetch failed"));
                      Waiting (dynamic_job (Number.of_decimal false 150 0))])).
  - apply (reachable_step system_contended).
    + exact reachable_contended.
    + exact (step_settle (world system_contended) []
               (fixed_job (Number.of_decimal false 50 0))
               [Waiting (dynamic_job (Number.of_decimal false 150 0))]
               (FetchRejected "fetch failed") _ _ eq_refl).
  - exact (step_after_request _ (reset_body (Number.of_decimal false 999 2))).
Defined.

(** [withLock] makes a request wait exactly when an update for its key is in
    flight.  In a reachable state, a job whose key has no update in flight
    takes the lock at once and starts its call - also when older requests
    still sleep in the polling loop for that key; a job whose key has one
    keeps polling and changes nothing. *)
Theorem withLock_waits_iff_in_flight (s : System) (j : Job) :
  reachable s ->
  (in_flight (key j) (tasks s) = O ->
   withLock_enter (world s) j
   = (mkWorld (JsMap.set (key j) (JsBool true) (locks (world s)))
              (calls (world s) ++ [call j]),
      InFlight j))
  /\ (in_flight (key j) (tasks s) <> O ->
      withLock_enter (world s) j = (world s, Waiting j)).
Proof.
  intros R. destruct (reachable_invariant s R) as [_ I].
  destruct (I (key j)) as [G _]. split; intros Z.
  - apply withLock_enter_free. rewrite G, Z. reflexivity.
  - apply withLock_enter_busy. rewrite G.
    destruct (in_flight (key j) (tasks s)); [contradiction | reflexivity].
Qed.

Lemma withLock_waits_witness :
  withLock_enter (world system_contended)
                 (dynamic_job (Number.of_decimal false 150 0))
  = (world system_contended,
     Waiting (dynamic_job (Number.of_decimal false 150 0)))
  /\ tasks system_overtaken
     = [Done (mkResp 500 (Failure "fetch failed"));
        Waiting (dynamic_job (Number.of_decimal false 150 0));
        InFlight (reset_job PROTECTION_VARIANT_DYNAMIC
                            (Number.of_decimal false 999 2))].
Proof.
  split; [|reflexivity].
  apply (proj2 (withLock_waits_iff_in_flight system_contended
                  (dynamic_job (Number.of_decimal false 150 0))
                  reachable_contended)).
  intros H; discriminate H.
Defined.

(** Taking a lock that has no entry and releasing it again leaves every key
    of the map as it was; the call of the job is the one thing added. *)
Theorem withLock_round_trip (w : World) (j : Job) (v : JsValue) :
  JsMap.get (key j) (locks w) = JsUndefined ->
  JsMap.get v (locks (withLock_exit (fst (withLock_enter w j)) j))
  = JsMap.get v (locks w)
  /\ calls (withLock_exit (fst (withLock_enter w j)) j) = calls w ++ [call j].
Proof.
  intros F. rewrite withLock_enter_free by (rewrite F; reflexivity). simpl.
  split; [|reflexivity].
  destruct (SameValueZero (key j) v) eqn:S.
  - rewrite (get_delete_same _ _ _ S), <- (get_compat _ _ _ S), F. reflexivity.
  - rewrite (get_delete_other _ _ _ S), (get_set_other _ _ _ _ S). reflexivity.
Qed.

Lemma withLock_round_trip_witness :
  JsMap.get (JsString "7")
    (locks (withLock_exit
              (fst (withLock_enter
                      (mkWorld [(JsString "7", JsBool true)] [])
                      (fixed_job zero)))
              (fixed_job zero)))
  = JsBool true.
Proof.
  apply (withLock_round_trip (mkWorld [(JsString "7", JsBool true)] [])
           (fixed_job zero) (JsString "7")).
  reflexivity.
Defined.

(** The release hands the lock over: whatever the map held, once the holder
    of a key has settled, the next job that tests this key takes the lock,
    and a job for another key is not affected by the release. *)
Theorem withLock_exit_then_enter (w : World) (j j' : Job) :
  (SameValueZero (key j) (key j') = true ->
   snd (withLock_enter (withLock_exit w j) j') = InFlight j')
  /\ (SameValueZero (key j) (key j') = false ->
      snd (withLock_enter (withLock_exit w j) j') = snd (withLock_enter w j')).
Proof.
  split; intros S; unfold withLock_enter; simpl.
  - rewrite (get_delete_same _ _ _ S). reflexivity.
  - rewrite (get_delete_other _ _ _ S).
    destruct (ToBoolean (JsMap.get (key j') (locks w))); reflexivity.
Qed.

Lemma withLock_exit_then_enter_witness :
  snd (withLock_enter
         (withLock_exit (world system_contended)
                        (fixed_job (Number.of_decimal false 50 0)))
         (dynamic_job (Number.of_decimal false 150 0)))
  = InFlight (dynamic_job (Number.of_decimal false 150 0)).
Proof.
  apply (proj1 (withLock_exit_then_enter (world system_contended)
                  (fixed_job (Number.of_decimal false 50 0))
                  (dynamic_job (Number.of_decimal false 150 0)))).
  reflexivity.
Defined.

(** ** The sign of computed numbers *)

Lemma shr_1_nonneg (mrs : shr_record) : 0 <= shr_m mrs -> 0 <= shr_m (shr_1 mrs).
Proof.
  destruct mrs as [m r s]. simpl. intros H.
  destruct m as [|[p|p|]|p]; simpl; lia.
Qed.

Lemma iter_shr_1_nonneg (p : positive) (mrs : shr_record) :
  0 <= shr_m mrs -> 0 <= shr_m (iter_pos shr_1 p mrs).
Proof.
  revert mrs. induction p as [p IH|p IH|]; intros mrs H; simpl.
  - apply IH, IH, shr_1_nonneg, H.
  - apply IH, IH, H.
  - apply shr_1_nonneg, H.
Qed.

Lemma shr_fexp_nonneg (m e : Z) (l : location) :
  0 <= m -> 0 <= shr_m (fst (shr_fexp Number.prec Number.emax m e l)).
Proof.
  intros H. unfold shr_fexp, shr.
  assert (R : 0 <= shr_m (shr_record_of_loc m l))
    by (destruct l as [|[| |]]; exact H).
  destruct (fexp Number.prec Number.emax (Zdigits2 m + e) - e) as [|p|p]; simpl;
    [exact R | apply iter_shr_1_nonneg, R | exact R].
Qed.

Lemma round_nearest_even_nonneg (m : Z) (l : location) :
  0 <= m -> 0 <= round_nearest_even m l.
Proof.
  intros H. destruct l as [|[| |]]; simpl; try lia.
  destruct (Z.even m); lia.
Qed.

(** Rounding a mantissa that is not negative gives a zero, a finite number or
    an infinity of the requested sign, never NaN. *)
Lemma binary_round_aux_sign (sx : bool) (mx ex : Z) (lx : location) :
  0 <= mx -> has_sign sx (binary_round_aux Number.prec Number.emax sx mx ex lx).
Proof.
  intros H. unfold binary_round_aux.
  pose proof (shr_fexp_nonneg mx ex lx H) as H1.
  destruct (shr_fexp Number.prec Number.emax mx ex lx) as [mrs1 e1]. simpl in H1.
  pose proof (shr_fexp_nonneg _ e1 loc_Exact
                (round_nearest_even_nonneg _ (loc_of_shr_record mrs1) H1)) as H2.
  destruct (shr_fexp Number.prec Number.emax
              (round_nearest_even (shr_m mrs1) (loc_of_shr_record mrs1)) e1
              loc_Exact) as [mrs2 e2].
  simpl in H2. destruct (shr_m mrs2) as [|m|m]; [reflexivity | | simpl in H2; lia].
  destruct (e2 <=? Number.emax - Number.prec); reflexivity.
Qed.

Lemma mul_sign (x : Number.t) (my : positive) (ey : Z) :
  has_sign false x -> has_sign false (Number.mul x (S754_finite false my ey)).
Proof.
  intros X. unfold Number.mul.
  destruct x as [sx|sx| |sx mx ex]; simpl in *; try contradiction; subst;
    try reflexivity.
  apply binary_round_aux_sign. lia.
Qed.

Lemma add_sign (x y : Number.t) :
  has_sign false x -> has_sign false y -> has_sign false (Number.add x y).
Proof.
  intros X Y.
  destruct x as [sx|sx| |sx mx ex], y as [sy|sy| |sy my ey]; simpl in *;
    try contradiction; subst; try reflexivity.
  unfold Number.add, SFadd. simpl.
  destruct (fst (shl_align mx ex (Z.min ex ey)) + fst (shl_align my ey (Z.min ex ey)))%positive
    as [q|q|] eqn:E;
    unfold binary_normalize; simpl; unfold binary_round;
    match goal with |- context [shl_align ?a ?b ?c] =>
      destruct (shl_align a b c) as [mz ez] end;
    apply binary_round_aux_sign; lia.
Qed.

Lemma of_decimal_sign (neg : bool) (digits scale : N) :
  has_sign neg (Number.of_decimal neg digits scale).
Proof.
  destruct digits as [|d]; simpl; [reflexivity|].
  unfold SFdiv_core_binary.
  set (m' := match _ - _ with Z0 => Zpos d | Zpos _ => _ | Zneg _ => 0 end).
  assert (M : 0 <= m').
  { subst m'. destruct (_ - _) as [|q|q]; try lia. apply Z.shiftl_nonneg. lia. }
  pose proof (Z.div_pos m' (Zpos (Number.pow10 scale)) M ltac:(lia)) as Q.
  unfold Z.div in Q.
  destruct (Z.div_eucl m' (Zpos (Number.pow10 scale))) as [q r]. simpl in Q.
  rewrite xorb_false_r. apply binary_round_aux_sign. exact Q.
Qed.

Lemma ofString_toFixed2_sign (x : Number.t) :
  has_sign false x -> has_sign false (Number.ofString (Number.toFixed2 x)).
Proof.
  intros X. destruct x as [sx|sx| |sx mx ex]; simpl in *; try contradiction;
    subst; try reflexivity.
  destruct (Number.ge_1e21 mx ex); simpl; [reflexivity|].
  apply of_decimal_sign.
Qed.

(** The dynamic price is never NaN and never negative. *)
Lemma targetPrice_sign (s : Number.t) :
  has_sign false s -> has_sign false (targetPrice s).
Proof.
  intros S. unfold targetPrice. apply ofString_toFixed2_sign.
  apply add_sign; [|reflexivity].
  exact (mul_sign s _ _ S).
Qed.

Lemma has_sign_leb (x : Number.t) : has_sign false x -> Number.leb zero x = true.
Proof.
  destruct x as [sx|sx| |sx mx ex]; simpl; intros H; try contradiction; subst;
    reflexivity.
Qed.

Lemma not_below_threshold_sign (s : Number.t) :
  Number.isNaN s = false -> Number.ltb s PROTECTION_THRESHOLD = false ->
  has_sign false s.
Proof.
  destruct s as [sx|[|]| |[|] mx ex]; simpl; intros N H;
    try discriminate; reflexivity.
Qed.

(** ** Answers and remote calls of the running server *)

Lemma ltb_leb (x y : Number.t) : Number.ltb x y = true -> Number.leb x y = true.
Proof.
  unfold Number.ltb, Number.leb, SFltb, SFleb.
  destruct (SFcompare x y) as [[| |]|]; congruence.
Qed.

Lemma js_or_truthy (a d : JsValue) :
  ToBoolean d = true -> ToBoolean (js_or a d) = true.
Proof. intros D. unfold js_or. destruct (ToBoolean a) eqn:A; assumption. Qed.

(** The handler either answers at once, with 400 or with the 500 of the
    [catch] block, or hands [withLock] a job whose call names a truthy
    identifier and a price [>= 0]. *)
Lemma entry_cases (w : World) (b : Body) :
  (exists r, handler_entry w b = (w, Done r) /\ well_formed r
             /\ surely_called (Done r) = false)
  \/ (exists j, handler_entry w b = withLock_enter w j /\ call_ok (call j)).
Proof.
  assert (B : forall e, e <> EmptyString ->
                        well_formed (bad_request e)
                        /\ surely_called (Done (bad_request e)) = false).
  { intros e N. split; [|reflexivity]. split; [left; reflexivity | exact N]. }
  unfold handler_entry. destruct (is_true (reset b)).
  - destruct (new_price b) as [| | |p| |];
      try (left; eexists; split; [reflexivity | apply B; discriminate]).
    destruct (Number.isNaN p) eqn:N; simpl;
      [left; eexists; split; [reflexivity | apply B; discriminate]|].
    destruct (Number.leb p zero) eqn:L;
      [left; eexists; split; [reflexivity | apply B; discriminate]|].
    destruct (ToString (js_or (variant_id b) PROTECTION_VARIANT_DYNAMIC)).
    + right. eexists. split; [reflexivity|]. split; simpl.
      * apply js_or_truthy. reflexivity.
      * apply ltb_leb. apply not_leb_ltb; [exact N | reflexivity | exact L].
    + left. eexists. split; [reflexivity|]. split; [|reflexivity].
      split; [right; reflexivity | discriminate].
  - destruct (subtotal b) as [| | |s| |];
      try (left; eexists; split; [reflexivity | apply B; discriminate]).
    destruct (Number.isNaN s) eqn:N; simpl;
      [left; eexists; split; [reflexivity | apply B; discriminate]|].
    destruct (Number.ltb s zero) eqn:L;
      [left; eexists; split; [reflexivity | apply B; discriminate]|].
    destruct (Number.ltb s PROTECTION_THRESHOLD) eqn:T;
      right; eexists; (split; [reflexivity|]); split; try reflexivity.
    simpl. apply has_sign_leb, targetPrice_sign.
    exact (not_below_threshold_sign s N T).
Qed.

Lemma handler_resume_shape (j : Job) (r : JsError + option (JsValue * JsValue)) :
  well_formed (handler_resume j r) /\ called_remote (Done (handler_resume j r)) = true.
Proof.
  assert (C : forall err, well_formed (caught err)
                          /\ called_remote (Done (caught err)) = true).
  { intros [msg st]. unfold well_formed, caught. simpl.
    split; [|reflexivity]. split; [right; reflexivity|].
    destruct msg; discriminate. }
  destruct r as [err|[[id price]|]]; simpl; try apply C.
  split; reflexivity.
Qed.

Lemma filter_length_insert (f : Task -> bool) (l1 l2 : list Task) (t : Task) :
  List.length (filter f (l1 ++ t :: l2))
  = ((if f t then 1 else 0) + List.length (filter f (l1 ++ l2)))%nat.
Proof.
  rewrite !filter_app, !length_app. simpl.
  destruct (f t); simpl; lia.
Qed.

Lemma Forall_insert (P : Task -> Prop) (l1 l2 : list Task) (t : Task) :
  Forall P (l1 ++ t :: l2) <-> P t /\ Forall P (l1 ++ l2).
Proof.
  rewrite !Forall_app, Forall_cons_iff. tauto.
Qed.

Lemma enter_observed (w : World) (l1 l2 : list Task) (j : Job) (w' : World)
      (t : Task) :
  call_ok (call j) ->
  observed w (l1 ++ l2) ->
  withLock_enter w j = (w', t) ->
  observed w' (l1 ++ t :: l2).
Proof.
  intros J (T & C & L) E. unfold withLock_enter in E.
  destruct (ToBoolean (JsMap.get (key j) (locks w)));
    injection E as <- <-; unfold observed;
    rewrite Forall_insert, !filter_length_insert; simpl.
  - auto.
  - split; [split; [exact J | exact T]|].
    split; [apply Forall_app; split; [exact C | repeat constructor; apply J]|].
    rewrite length_app. simpl. lia.
Qed.

Lemma step_observed (s s' : System) :
  observed (world s) (tasks s) -> step s s' -> observed (world s') (tasks s').
Proof.
  intros O St.
  destruct St as [w ts b w' t E | w l1 j l2 w' t E | w l1 j l2 o w' t E];
    simpl in *.
  - rewrite <- (app_nil_r ts) in O.
    destruct (entry_cases w b) as [(r & D & W & K) | (j & D & J)]; rewrite D in E.
    + injection E as <- <-. destruct O as (T & C & L). unfold observed.
      rewrite Forall_insert, !filter_length_insert, K. simpl.
      split; [split; assumption|]. split; [exact C|].
      destruct (negb (code r =? 400)%N); lia.
    + exact (enter_observed w ts [] j w' t J O E).
  - assert (J : call_ok (call j)).
    { destruct O as (T & _). apply Forall_insert in T. exact (proj1 T). }
    apply (enter_observed w l1 l2 j w' t J); [|exact E].
    destruct O as (T & C & L). rewrite Forall_insert in T.
    rewrite !filter_length_insert in L. simpl in L.
    repeat split; tauto.
  - unfold settle in E. injection E as <- <-.
    destruct O as (T & C & L). rewrite Forall_insert in T.
    rewrite !filter_length_insert in L. unfold observed.
    rewrite Forall_insert, !filter_length_insert.
    destruct (handler_resume_shape j (updateVariantPrice_resume o)) as [W K].
    rewrite K. simpl in *.
    split; [split; tauto|]. split; [exact C|].
    destruct (code (handler_resume j (updateVariantPrice_resume o)) =? 200)%N; lia.
Qed.

Lemma reachable_observed (s : System) :
  reachable s -> observed (world s) (tasks s).
Proof.
  induction 1 as [|s s' _ IH St].
  - split; [constructor|]. split; [constructor|]. simpl. lia.
  - exact (step_observed s s' IH St).
Qed.

(** Every answer of the endpoint, whatever the interleaving and the outcome
    of the remote call, is 200 with the success payload or 400 or 500 with
    [{success: false, error}]; the [error] text is never empty. *)
Theorem answers_well_formed (s : System) (r : Response) :
  reachable s -> In (Done r) (tasks s) -> well_formed r.
Proof.
  intros R I. destruct (reachable_observed s R) as (T & _).
  rewrite Forall_forall in T. exact (T (Done r) I).
Qed.

Lemma answers_well_formed_witness :
  well_formed (mkResp 500 (Failure "fetch failed")).
Proof.
  apply (answers_well_formed system_overtaken _ reachable_overtaken).
  left. reflexivity.
Defined.

(** No request makes more than one remote call, and an answer of 200 is
    never given without one: in every reachable state the log of the calls of
    [updateVariantPrice] has at least one entry per task in flight or
    answered 200, and at most one per task in flight or answered otherwise
    than by 400; a task that is still polling or was answered 400 accounts
    for none. *)
Theorem calls_bounded_by_served_requests (s : System) :
  reachable s ->
  (List.length (filter surely_called (tasks s))
   <= List.length (calls (world s))
   <= List.length (filter called_remote (tasks s)))%nat.
Proof.
  intros R. exact (proj2 (proj2 (reachable_observed s R))).
Qed.

Lemma calls_bounded_witness :
  (1 <= List.length (calls (world system_overtaken)) <= 2)%nat.
Proof.
  exact (calls_bounded_by_served_requests system_overtaken reachable_overtaken).
Defined.

(** The remote is never asked for a falsy variant identifier (absent, null,
    empty, 0, NaN) nor for a price that is NaN or negative: every call made
    in a reachable state names a truthy identifier and a price [>= 0]. *)
Theorem calls_name_variant_and_price (s : System) (c : UpdateCall) :
  reachable s -> In c (calls (world s)) ->
  ToBoolean (variantId c) = true /\ Number.leb zero (newPrice c) = true.
Proof.
  intros R I. destruct (reachable_observed s R) as (_ & C & _).
  rewrite Forall_forall in C. exact (C c I).
Qed.

Lemma calls_name_variant_and_price_witness :
  ToBoolean PROTECTION_VARIANT_DYNAMIC = true
  /\ Number.leb zero (Number.of_decimal false 999 2) = true.
Proof.
  apply (calls_name_variant_and_price system_overtaken
           (mkCall PROTECTION_VARIANT_DYNAMIC (Number.of_decimal false 999 2))
           reachable_overtaken).
  right. left. reflexivity.
Defined.

(** ** What the endpoint reports and what it sends *)



(** The test [new_price <= 0] lets every positive number through, also one
    below half a cent: a reset to such a price, for a [variant_id] that can
    be spliced in the log line, is accepted, and the price text of the PUT
    payload, [newPrice.toFixed(2)], is "0.00". *)
Theorem reset_below_half_cent_sends_zero
        (w : World) (b : Body) (m p : positive) :
  reset b = JsBool true ->
  new_price b = JsNumber (S754_finite false m (Zneg p)) ->
  200 * Zpos m < Z.pow_pos 2 p ->
  let v := js_or (variant_id b) PROTECTION_VARIANT_DYNAMIC in
  ToString v <> None ->
  handler_entry w b
  = withLock_enter w (reset_job v (S754_finite false m (Zneg p)))
  /\ fetch_request (call (reset_job v (S754_finite false m (Zneg p))))
     = mkRequest v (Number.NS_Fixed2 false 0).
Proof.
  intros R P H v T. split.
  - apply entry_reset_converted;
      [apply is_true_iff; exact R | exact P | reflexivity | exact T].
  - unfold fetch_request, reset_job. cbn [call variantId newPrice].
    unfold Number.toFixed2. f_equal.
    assert (D : 0 < Z.pow_pos 2 p)
      by (rewrite Z.pow_pos_fold; apply Z.pow_pos_nonneg; lia).
    assert (G : Number.ge_1e21 m (Zneg p) = false).
    { unfold Number.ge_1e21. apply Z.leb_gt.
      change (10 ^ 21) with 1000000000000000000000. lia. }
    rewrite G. f_equal. unfold Number.nearest_cents.
    rewrite Z.div_small; [reflexivity | lia].
Qed.

Lemma reset_below_half_cent_witness :
  fetch_request (call (reset_job PROTECTION_VARIANT_DYNAMIC
                                 (S754_finite false 1 (-8))))
  = mkRequest PROTECTION_VARIANT_DYNAMIC (Number.NS_Fixed2 false 0).
Proof.
  apply (reset_below_half_cent_sends_zero world0
           (reset_body (S754_finite false 1 (-8))) 1 8);
    try reflexivity.
  intros H; discriminate H.
Defined.

(** ** Reading back a two-decimal text *)

Lemma digits2_pos_bounds (p : positive) :
  2 ^ (Zpos (digits2_pos p) - 1) <= Zpos p < 2 ^ Zpos (digits2_pos p).
Proof.
  induction p as [p IH|p IH|]; simpl digits2_pos.
  - rewrite Pos2Z.inj_succ.
    replace (Z.succ (Zpos (digits2_pos p)) - 1) with (Z.succ (Zpos (digits2_pos p) - 1)) by lia.
    rewrite !Z.pow_succ_r by lia. lia.
  - rewrite Pos2Z.inj_succ.
    replace (Z.succ (Zpos (digits2_pos p)) - 1) with (Z.succ (Zpos (digits2_pos p) - 1)) by lia.
    rewrite !Z.pow_succ_r by lia. lia.
  - simpl. lia.
Qed.

Lemma Zdigits2_unique (q k : Z) :
  0 < k -> 2 ^ (k - 1) <= q < 2 ^ k -> Zdigits2 q = k.
Proof.
  intros K [L U]. assert (Q : 0 < q) by (pose proof (Z.pow_pos_nonneg 2 (k - 1)); lia).
  destruct q as [|p|p]; try lia. simpl.
  pose proof (digits2_pos_bounds p) as [L' U'].
  set (d := Zpos (digits2_pos p)) in *.
  destruct (Z.lt_trichotomy d k) as [H|[H|H]]; [|exact H|].
  - pose proof (Z.pow_le_mono_r 2 d (k - 1) ltac:(lia) ltac:(lia)). lia.
  - pose proof (Z.pow_le_mono_r 2 k (d - 1) ltac:(lia) ltac:(lia)). lia.
Qed.

Lemma shr_1_spec (m : Z) (r s : bool) :
  0 <= m ->
  shr_1 (Build_shr_record m r s) = Build_shr_record (m / 2) (Z.odd m) (r || s).
Proof.
  intros H. rewrite <- Z.div2_div.
  destruct m as [|[p|p|]|p]; try lia; reflexivity.
Qed.

Lemma div_eucl_div_mod (a b : Z) : Z.div_eucl a b = (a / b, a mod b).
Proof. unfold Z.div, Z.modulo. destruct (Z.div_eucl a b); reflexivity. Qed.

Lemma loc_of_record_of_loc (m : Z) (l : location) :
  loc_of_shr_record (shr_record_of_loc m l) = l.
Proof. destruct l as [|[| |]]; reflexivity. Qed.

Lemma shr_m_record_of_loc (m : Z) (l : location) :
  shr_m (shr_record_of_loc m l) = m.
Proof. destruct l as [|[| |]]; reflexivity. Qed.

Lemma shr_fexp_53 (q e : Z) (l : location) :
  2 ^ 52 <= q < 2 ^ 53 -> -1074 <= e ->
  shr_fexp Number.prec Number.emax q e l = (shr_record_of_loc q l, e).
Proof.
  intros Q E. unfold shr_fexp.
  rewrite (Zdigits2_unique q 53 ltac:(lia) Q).
  unfold fexp, emin, Number.prec, Number.emax.
  replace (Z.max (53 + e - 53) (3 - 1024 - 53) - e) with 0 by lia.
  reflexivity.
Qed.

Lemma shr_fexp_54 (q e : Z) (l : location) :
  2 ^ 53 <= q < 2 ^ 54 -> -1075 <= e ->
  shr_fexp Number.prec Number.emax q e l = (shr_1 (shr_record_of_loc q l), e + 1).
Proof.
  intros Q E. unfold shr_fexp.
  rewrite (Zdigits2_unique q 54 ltac:(lia) Q).
  unfold fexp, emin, Number.prec, Number.emax.
  replace (Z.max (54 + e - 53) (3 - 1024 - 53) - e) with 1 by lia.
  reflexivity.
Qed.

Lemma round_nearest_even_bounds (m : Z) (l : location) :
  m <= round_nearest_even m l <= m + 1.
Proof.
  destruct l as [|[| |]]; simpl; try lia. destruct (Z.even m); lia.
Qed.

(** Rounding a mantissa of 53 bits. *)
Lemma binary_round_aux_53 (sx : bool) (q e : Z) (l : location) :
  2 ^ 52 <= q < 2 ^ 53 -> -1074 <= e <= 970 ->
  exists m e2,
    binary_round_aux Number.prec Number.emax sx q e l = S754_finite sx m e2
    /\ 2 ^ 52 <= Zpos m < 2 ^ 53
    /\ ((e2 = e /\ Zpos m = round_nearest_even q l)
        \/ (e2 = e + 1 /\ Zpos m = 2 ^ 52 /\ round_nearest_even q l = 2 ^ 53)).
Proof.
  intros Q E. unfold binary_round_aux.
  rewrite (shr_fexp_53 q e l Q) by lia.
  rewrite loc_of_record_of_loc, shr_m_record_of_loc.
  pose proof (round_nearest_even_bounds q l) as B.
  set (m1 := round_nearest_even q l) in *.
  destruct (Z.eq_dec m1 (2 ^ 53)) as [O|O].
  - rewrite O. rewrite (shr_fexp_54 (2 ^ 53) e loc_Exact) by lia.
    simpl shr_m.
    replace (e + 1 <=? Number.emax - Number.prec) with true
      by (symmetry; apply Z.leb_le; unfold Number.emax, Number.prec; lia).
    exists (Z.to_pos (2 ^ 52)), (e + 1). split; [reflexivity|].
    split; [split; [reflexivity | reflexivity]|].
    right. repeat split; reflexivity.
  - rewrite (shr_fexp_53 m1 e loc_Exact) by lia.
    simpl shr_m. destruct m1 as [|m|m]; try lia.
    replace (e <=? Number.emax - Number.prec) with true
      by (symmetry; apply Z.leb_le; unfold Number.emax, Number.prec; lia).
    exists m, e. split; [reflexivity|]. split; [lia|].
    left. split; reflexivity.
Qed.

(** Rounding a mantissa of 54 bits: one bit is shifted out. *)
Lemma binary_round_aux_54 (sx : bool) (q e : Z) (l : location) :
  2 ^ 53 <= q < 2 ^ 54 - 2 -> -1075 <= e <= 969 ->
  exists m,
    binary_round_aux Number.prec Number.emax sx q e l = S754_finite sx m (e + 1)
    /\ 2 ^ 52 <= Zpos m < 2 ^ 53
    /\ Zpos m
       = round_nearest_even (q / 2)
           (loc_of_shr_record
              (Build_shr_record (q / 2) (Z.odd q)
                 (match l with loc_Exact => false | _ => true end))).
Proof.
  intros Q E. unfold binary_round_aux.
  rewrite (shr_fexp_54 q e l) by lia.
  assert (S1 : shr_1 (shr_record_of_loc q l)
               = Build_shr_record (q / 2) (Z.odd q)
                   (match l with loc_Exact => false | _ => true end)).
  { destruct l as [|[| |]]; simpl shr_record_of_loc;
      rewrite shr_1_spec by lia; reflexivity. }
  rewrite S1. simpl shr_m.
  set (l' := loc_of_shr_record _).
  pose proof (round_nearest_even_bounds (q / 2) l') as B.
  set (m1 := round_nearest_even (q / 2) l') in *.
  assert (H : 2 ^ 52 <= q / 2 < 2 ^ 53 - 1).
  { split.
    - apply Z.div_le_lower_bound; lia.
    - apply Z.div_lt_upper_bound; lia. }
  rewrite (shr_fexp_53 m1 (e + 1) loc_Exact) by lia.
  simpl shr_m. destruct m1 as [|m|m]; try lia.
  replace (e + 1 <=? Number.emax - Number.prec) with true
    by (symmetry; apply Z.leb_le; unfold Number.emax, Number.prec; lia).
  exists m. split; [reflexivity|]. split; [lia | reflexivity].
Qed.

(** The quotient and the location [SFdiv] computes for [n / 100], [n]
    having [d <= 52] bits: the dividend is scaled to 60 bits. *)
Lemma SFdiv_core_cents (n : positive) :
  Zpos n < 2 ^ 52 ->
  let d := Zpos (digits2_pos n) in
  let Q := Zpos n * 2 ^ (60 - d) in
  1 <= d <= 52
  /\ 2 ^ 59 <= Q < 2 ^ 60
  /\ SFdiv_core_binary Number.prec Number.emax (Zpos n) 0 100 0
     = (Q / 100, d - 60,
        if Q mod 100 =? 0 then loc_Exact
        else loc_Inexact (2 * (Q mod 100) ?= 100)).
Proof.
  intros N d Q. pose proof (digits2_pos_bounds n) as [L U]. fold d in L, U.
  assert (D : 1 <= d <= 52).
  { split; [subst d; lia|].
    destruct (Z_le_gt_dec d 52) as [H|H]; [exact H|].
    pose proof (Z.pow_le_mono_r 2 52 (d - 1) ltac:(lia) ltac:(lia)). lia. }
  split; [exact D|].
  assert (P : 2 ^ 60 = 2 ^ d * 2 ^ (60 - d))
    by (rewrite <- Z.pow_add_r by lia; f_equal; lia).
  assert (P' : 2 ^ 59 = 2 ^ (d - 1) * 2 ^ (60 - d))
    by (rewrite <- Z.pow_add_r by lia; f_equal; lia).
  assert (S0 : 0 < 2 ^ (60 - d)) by (apply Z.pow_pos_nonneg; lia).
  split; [subst Q; nia|].
  unfold SFdiv_core_binary.
  change (Zdigits2 (Zpos n)) with d. change (Zdigits2 100) with 7.
  unfold fexp, emin, Number.prec, Number.emax.
  replace (Z.min (Z.max (d + 0 - (7 + 0) - 53) (3 - 1024 - 53)) (0 - 0))
    with (d - 60) by lia.
  replace (0 - 0 - (d - 60)) with (60 - d) by lia.
  destruct (60 - d) as [|s|s] eqn:S; try lia.
  rewrite Z.shiftl_mul_pow2 by lia. rewrite div_eucl_div_mod.
  reflexivity.
Qed.

(** [Number] of a two-decimal numeral below [2^52] cents is correctly
    rounded: the result [m * 2^(-p)] has a mantissa of 53 bits and is within
    half a unit in the last place of [n / 100]; the unit is at most
    [2^(-7)]. *)
Lemma of_decimal_accurate (n : positive) :
  Zpos n < 2 ^ 52 ->
  exists m p,
    Number.of_decimal false (Npos n) 2 = S754_finite false m (Zneg p)
    /\ 7 <= Zpos p <= 59
    /\ -50 <= 100 * Zpos m - Zpos n * 2 ^ Zpos p <= 50
    /\ 2 ^ 52 <= Zpos m < 2 ^ 53.
Proof.
  intros N. destruct (SFdiv_core_cents n N) as (D & HQ & C).
  cbv zeta in *. set (d := Zpos (digits2_pos n)) in *.
  unfold Number.of_decimal, SFdiv. change (Number.pow10 2) with 100%positive.
  rewrite C. clear C. change (xorb false false) with false.
  assert (HP : 2 ^ (60 - d) = 2 * 2 ^ (59 - d)).
  { rewrite <- Z.pow_succ_r by lia. f_equal. lia. }
  set (X := 2 ^ (59 - d)) in *.
  assert (EQ : Zpos n * 2 ^ (60 - d) = 2 * (Zpos n * X)) by (rewrite HP; ring).
  set (Q := Zpos n * 2 ^ (60 - d)) in *.
  pose proof (Z.div_mod Q 100 ltac:(lia)) as DM.
  pose proof (Z.mod_pos_bound Q 100 ltac:(lia)) as RB.
  set (q := Q / 100) in *. set (r := Q mod 100) in *.
  set (l := if r =? 0 then loc_Exact else loc_Inexact (2 * r ?= 100)).
  destruct (Z_lt_ge_dec q (2 ^ 53)) as [Hq|Hq].
  - destruct (binary_round_aux_53 false q (d - 60) l ltac:(lia) ltac:(lia))
      as (m & e2 & E & MB & [[-> M] | (-> & M & O)]); rewrite E.
    + exists m, (Z.to_pos (60 - d)).
      assert (Z.neg (Z.to_pos (60 - d)) = d - 60) as -> by lia.
      rewrite Z2Pos.id by lia. split; [reflexivity|]. split; [lia|].
      split; [|exact MB]. clear MB.
      fold Q. rewrite M. subst l. clearbody Q q r X.
      destruct (Z.eqb_spec r 0) as [Z|Z]; cbn [round_nearest_even]; [lia|].
      destruct (Z.compare_spec (2 * r) 100); cbn [round_nearest_even]; try lia.
      destruct (Z.even q); lia.
    + exists m, (Z.to_pos (59 - d)).
      assert (Z.neg (Z.to_pos (59 - d)) = d - 60 + 1) as -> by lia.
      rewrite Z2Pos.id by lia. split; [reflexivity|]. split; [lia|].
      split; [|exact MB]. clear MB.
      fold X. rewrite M.
      assert (B : -50 <= 100 * 2 ^ 53 - Q <= 50).
      { rewrite <- O. subst l. clearbody Q q r X.
        destruct (Z.eqb_spec r 0) as [Z|Z]; cbn [round_nearest_even]; [lia|].
        destruct (Z.compare_spec (2 * r) 100); cbn [round_nearest_even]; try lia.
        destruct (Z.even q); lia. }
      clearbody Q X. lia.
  - destruct (binary_round_aux_54 false q (d - 60) l ltac:(lia) ltac:(lia))
      as (m & E & MB & M); rewrite E.
    exists m, (Z.to_pos (59 - d)).
    assert (Z.neg (Z.to_pos (59 - d)) = d - 60 + 1) as -> by lia.
    rewrite Z2Pos.id by lia. split; [reflexivity|]. split; [lia|].
    split; [|exact MB]. clear MB.
    fold X. rewrite M.
    pose proof (Z.div_mod q 2 ltac:(lia)) as DM2.
    rewrite Zmod_odd in DM2.
    assert (B : -100 <= 200 * round_nearest_even (q / 2)
                          (loc_of_shr_record
                             (Build_shr_record (q / 2) (Z.odd q)
                                (match l with loc_Exact => false | _ => true end)))
                        - Q <= 100).
    { subst l. clearbody Q q r X.
      destruct (Z.eqb_spec r 0) as [Z|Z]; destruct (Z.odd q);
        cbn [round_nearest_even loc_of_shr_record];
        try lia; destruct (Z.even (q / 2)); lia. }
    clearbody Q X. lia.
Qed.

(** [toFixed(2)] of the Number read from a two-decimal text gives the text
    back, up to [2^52] cents: the detour through binary64 loses nothing. *)
Lemma toFixed2_ofString_Fixed2 (n : N) :
  (n < 2 ^ 52)%N ->
  Number.toFixed2 (Number.ofString (Number.NS_Fixed2 false n))
  = Number.NS_Fixed2 false n.
Proof.
  intros N. destruct n as [|n]; [reflexivity|].
  assert (N' : Zpos n < 2 ^ 52) by (change (Zpos n) with (Z.of_N (Npos n)); lia).
  destruct (of_decimal_accurate n N') as (m & p & E & P & A & _).
  unfold Number.ofString. rewrite E. unfold Number.toFixed2, Number.ge_1e21,
    Number.nearest_cents.
  rewrite Z.pow_pos_fold.
  assert (X : 128 <= 2 ^ Zpos p).
  { change 128 with (2 ^ 7). apply Z.pow_le_mono_r; lia. }
  set (D := 2 ^ Zpos p) in *.
  assert (T : Zpos n * D < 2 ^ 52 * D) by (apply Z.mul_lt_mono_pos_r; lia).
  remember (Zpos n * D) as t eqn:Ht. clearbody D.
  replace (10 ^ 21 * D <=? Zpos m) with false
    by (symmetry; apply Z.leb_gt; change (10 ^ 21) with 1000000000000000000000; lia).
  f_equal.
  assert (Q : (200 * Zpos m + D) / (2 * D) = Zpos n).
  { symmetry. apply (Z.div_unique_pos _ _ _ (200 * Zpos m + D - 2 * t)); [lia|].
    rewrite Ht. ring. }
  rewrite Q. reflexivity.
Qed.

(** ** The dynamic price and the text sent *)

(** Whenever [toFixed] prints the computed fee as [n] cents, [n] below
    [2^52], the price the dynamic path passes on is the binary64 number
    nearest to that two-decimal numeral: a canonical number [m * 2^(-p)] with
    a mantissa of 53 bits that is nearer to [n / 100] than half the spacing
    [2^(-p)] of the binary64 numbers there. *)
Theorem dynamic_price_nearest_to_text (s : Number.t) (n : positive) :
  let x := Number.add (Number.mul s PROTECTION_PERCENT) PROTECTION_BASE_INCREMENT in
  Number.toFixed2 x = Number.NS_Fixed2 false (Npos n) ->
  Zpos n < 2 ^ 52 ->
  exists m p,
    targetPrice s = S754_finite false m (Zneg p)
    /\ valid_binary Number.prec Number.emax (targetPrice s) = true
    /\ 2 ^ 52 <= Zpos m < 2 ^ 53
    /\ 2 * Z.abs (100 * Zpos m - Zpos n * 2 ^ Zpos p) < 100.
Proof.
  intros x T N. destruct (of_decimal_accurate n N) as (m & p & E & P & A & M).
  assert (E' : targetPrice s = S754_finite false m (Zneg p))
    by (unfold targetPrice; fold x; rewrite T; exact E).
  exists m, p. split; [exact E'|]. split; [|split; [exact M|]].
  - rewrite E'. unfold valid_binary, bounded, canonical_mantissa.
    change (Zpos (digits2_pos m)) with (Zdigits2 (Zpos m)).
    rewrite (Zdigits2_unique (Zpos m) 53 ltac:(lia) M).
    unfold fexp, emin, Number.prec, Number.emax.
    apply andb_true_intro. split; [apply Z.eqb_eq | apply Z.leb_le]; lia.
  - assert (HX : 2 ^ Zpos p = 4 * 2 ^ (Zpos p - 2)).
    { change 4 with (2 ^ 2). rewrite <- Z.pow_add_r by lia. f_equal. lia. }
    rewrite HX in *. set (Y := 2 ^ (Zpos p - 2)) in *. clearbody Y.
    assert (HY : Zpos n * (4 * Y) = 4 * (Zpos n * Y)) by ring.
    rewrite HY in *. set (t := Zpos n * Y) in *. clearbody t. lia.
Qed.

Lemma dynamic_price_nearest_witness :
  exists m p,
    targetPrice (Number.of_decimal false 1000 0) = S754_finite false m (Zneg p)
    /\ valid_binary Number.prec Number.emax
         (targetPrice (Number.of_decimal false 1000 0)) = true
    /\ 2 ^ 52 <= Zpos m < 2 ^ 53
    /\ 2 * Z.abs (100 * Zpos m - 3001 * 2 ^ Zpos p) < 100.
Proof.
  apply (dynamic_price_nearest_to_text (Number.of_decimal false 1000 0) 3001);
    reflexivity.
Defined.

(** On the dynamic path the price text of the PUT payload,
    [targetPrice.toFixed(2)], is the very text [toFixed(2)] gave for the
    computed fee: reading that text as a Number and printing it again changes
    nothing, as long as the fee is below [2^52] cents or at least [10^21]. *)
Theorem dynamic_payload_is_fee_text (w : World) (b : Body) (s : Number.t) :
  is_true (reset b) = false ->
  subtotal b = JsNumber s ->
  Number.leb PROTECTION_THRESHOLD s = true ->
  let x := Number.add (Number.mul s PROTECTION_PERCENT) PROTECTION_BASE_INCREMENT in
  (forall neg n, Number.toFixed2 x = Number.NS_Fixed2 neg n -> (n < 2 ^ 52)%N) ->
  handler_entry w b = withLock_enter w (dynamic_job s)
  /\ fetch_request (call (dynamic_job s))
     = mkRequest PROTECTION_VARIANT_DYNAMIC (Number.toFixed2 x).
Proof.
  intros R S L x H. split; [exact (entry_dynamic w b s R S L)|].
  unfold fetch_request, dynamic_job. cbn [call variantId newPrice]. f_equal.
  unfold targetPrice. fold x.
  destruct (above_threshold s L) as (N & _ & T).
  assert (X : has_sign false x).
  { apply add_sign; [|reflexivity].
    exact (mul_sign s _ _ (not_below_threshold_sign s N T)). }
  clearbody x.
  destruct (Number.toFixed2 x) as [|sg|sg n|y] eqn:F.
  - reflexivity.
  - reflexivity.
  - assert (sg = false) as ->.
    { destruct x as [sx|sx| |sx mx ex]; simpl in X, F; try contradiction;
        try discriminate F; subst.
      - injection F as <- _. reflexivity.
      - destruct (Number.ge_1e21 mx ex); [discriminate F|].
        injection F as <- _. reflexivity. }
    apply toFixed2_ofString_Fixed2. exact (H false n eq_refl).
  - assert (y = x) as ->.
    { destruct x as [sx|sx| |sx mx ex]; simpl in F; try discriminate F.
      destruct (Number.ge_1e21 mx ex); [|discriminate F].
      injection F as <-. reflexivity. }
    exact F.
Qed.

Lemma dynamic_payload_witness :
  fetch_request (call (dynamic_job (Number.of_decimal false 150 0)))
  = mkRequest PROTECTION_VARIANT_DYNAMIC (Number.NS_Fixed2 false 451).
Proof.
  apply (dynamic_payload_is_fee_text world0 (subtotal_body 150 0)
           (Number.of_decimal false 150 0) eq_refl eq_refl eq_refl).
  intros neg n H. vm_compute in H. injection H as _ <-. reflexivity.
Defined.

(** ** No request is locked out *)

Lemma in_flight_holder (v : JsValue) (ts : list Task) :
  in_flight v ts <> O ->
  exists j, In (InFlight j) ts /\ SameValueZero (variantId (call j)) v = true.
Proof.
  unfold in_flight. intros H.
  destruct (filter (updating v) ts) as [|t rest] eqn:F; [contradiction H; reflexivity|].
  assert (I : In t (filter (updating v) ts)) by (rewrite F; left; reflexivity).
  apply filter_In in I. destruct I as [I U].
  destruct t as [j|j|r]; try discriminate U.
  exists j. split; [exact I | exact U].
Qed.

Lemma enter_after_holder_exit (w : World) (j1 j : Job) :
  key j1 = variantId (call j1) ->
  SameValueZero (variantId (call j1)) (key j) = true ->
  withLock_enter (withLock_exit w j1) j
  = (mkWorld (JsMap.set (key j) (JsBool true) (locks (withLock_exit w j1)))
             (calls w ++ [call j]),
     InFlight j).
Proof.
  intros W S. rewrite withLock_enter_free; [reflexivity|]. simpl.
  rewrite W, (get_delete_same _ _ _ S). reflexivity.
Qed.

(** A lock is never left held by nobody: a polling request can get the
    lock.  In a reachable state, when no update for its key is in flight, the
    wake-up step of the request takes the lock; otherwise one task holds the
    key, and whatever the outcome of its call, the step that settles this
    call followed by the wake-up step of the request gives the request the
    lock.  (The code does not force this order of steps: a request that
    comes in between can take the lock first.) *)
Theorem waiting_task_can_acquire (s : System) (before after : list Task) (j : Job) :
  reachable s ->
  tasks s = before ++ Waiting j :: after ->
  (in_flight (key j) (tasks s) = O ->
   exists w', step s (mkSystem w' (before ++ InFlight j :: after)))
  /\ (in_flight (key j) (tasks s) <> O ->
      exists j1,
        In (InFlight j1) (tasks s)
        /\ SameValueZero (key j1) (key j) = true
        /\ forall o : FetchOutcome,
             exists s1 w' before' after',
               step s s1
               /\ In (Done (handler_resume j1 (updateVariantPrice_resume o)))
                     (tasks s1)
               /\ step s1 (mkSystem w' (before' ++ InFlight j :: after'))
               /\ List.length before' = List.length before).
Proof.
  intros R E. destruct (reachable_invariant s R) as [WF LI].
  destruct s as [w ts]. simpl in E, WF, LI. subst ts. simpl tasks.
  split; intros Z.
  - assert (G : withLock_enter w j
                = (mkWorld (JsMap.set (key j) (JsBool true) (locks w))
                           (calls w ++ [call j]), InFlight j)).
    { apply withLock_enter_free. rewrite (proj1 (LI (key j))), Z. reflexivity. }
    eexists. exact (step_wake w before j after _ _ G).
  - destruct (in_flight_holder _ _ Z) as (j1 & I & S).
    assert (W1 : key j1 = variantId (call j1)).
    { rewrite Forall_forall in WF. exact (WF (InFlight j1) I). }
    exists j1. split; [exact I|]. split; [rewrite W1; exact S|]. intros o.
    pose proof (enter_after_holder_exit w j1 j W1 S) as G.
    set (r := handler_resume j1 (updateVariantPrice_resume o)).
    apply in_app_or in I. destruct I as [I|[I|I]]; [|discriminate I|].
    + apply in_split in I. destruct I as (a & c & ->).
      exists (mkSystem (withLock_exit w j1) (a ++ Done r :: c ++ Waiting j :: after)).
      eexists. exists (a ++ Done r :: c), after.
      split; [|split; [|split]].
      * rewrite <- app_assoc. simpl.
        exact (step_settle w a j1 (c ++ Waiting j :: after) o _ _ eq_refl).
      * simpl. apply in_or_app. right. left. reflexivity.
      * replace (a ++ Done r :: c ++ Waiting j :: after)
          with ((a ++ Done r :: c) ++ Waiting j :: after)
          by (rewrite <- app_assoc; reflexivity).
        exact (step_wake _ _ j after _ _ G).
      * rewrite !length_app. reflexivity.
    + apply in_split in I. destruct I as (a & c & ->).
      exists (mkSystem (withLock_exit w j1) (before ++ Waiting j :: a ++ Done r :: c)).
      eexists. exists before, (a ++ Done r :: c).
      split; [|split; [|split]].
      * replace (before ++ Waiting j :: a ++ InFlight j1 :: c)
          with ((before ++ Waiting j :: a) ++ InFlight j1 :: c)
          by (rewrite <- app_assoc; reflexivity).
        replace (before ++ Waiting j :: a ++ Done r :: c)
          with ((before ++ Waiting j :: a) ++ Done r :: c)
          by (rewrite <- app_assoc; reflexivity).
        exact (step_settle w _ j1 c o _ _ eq_refl).
      * simpl. apply in_or_app. right. right. apply in_or_app. right. left.
        reflexivity.
      * exact (step_wake _ before j _ _ _ G).
      * reflexivity.
Qed.

Lemma waiting_task_can_acquire_witness :
  exists j1,
    In (InFlight j1) (tasks system_contended)
    /\ SameValueZero (key j1)
         (key (dynamic_job (Number.of_decimal false 150 0))) = true
    /\ forall o : FetchOutcome,
         exists s1 w' before' after',
           step system_contended s1
           /\ In (Done (handler_resume j1 (updateVariantPrice_resume o)))
                 (tasks s1)
           /\ step s1 (mkSystem w'
                         (before' ++ InFlight (dynamic_job
                                                 (Number.of_decimal false 150 0))
                                  :: after'))
           /\ List.length before' = 1%nat.
Proof.
  apply (proj2 (waiting_task_can_acquire system_contended
                  [InFlight (fixed_job (Number.of_decimal false 50 0))] []
                  (dynamic_job (Number.of_decimal false 150 0))
                  reachable_contended eq_refl)).
  intros H; discriminate H.
Defined.
